(** * FoliageCaptureActor: pool keys, pool map and instance counting

    A shallow embedding of [Source/aiden_geo_tutorial/Public/FoliageCaptureActor.h].

    The header defines three function bodies: the hash and the equality of
    [FFoliageGeometryType] and [AFoliageCaptureActor::GetInstanceCount].
    Every other member function is only declared there; the parts of the
    pipeline that the properties below need are modelled from the
    specification and are marked as such. *)

From Stdlib Require Import ZArith Lia Bool List.
From Stdlib Require Import Floats.SpecFloat.
From stdpp Require Import base option list strings gmap.

Local Open Scope Z_scope.

(** ** Machine integers *)

(** [uint32] arithmetic wraps modulo 2^32. *)
Definition uint32 (z : Z) : Z := z mod 2 ^ 32.

(** [int32] arithmetic, two's complement wrap-around. *)
Definition int32 (z : Z) : Z := (z + 2 ^ 31) mod 2 ^ 32 - 2 ^ 31.

Definition INT32_MIN : Z := - 2 ^ 31.
Definition INT32_MAX : Z := 2 ^ 31 - 1.

(** ** Floats *)

(** A C++ [float] or [double] is an IEEE-754 value; [operator==] on it is
    the IEEE comparison: a NaN differs from everything, itself included, and
    the two zeros are equal. *)
Definition float : Type := spec_float.
Definition double : Type := spec_float.

Definition float_eq (a b : float) : bool := SFeqb a b.

Definition is_nan (a : float) : bool :=
  match a with S754_nan => true | _ => false end.

(** IEEE equality, spelled out: both are zeros, or they are the same value
    and not a NaN. *)
Definition float_same (a b : float) : Prop :=
  match a, b with
  | S754_zero _, S754_zero _ => True
  | _, _ => a = b /\ is_nan a = false
  end.

(** [FFloatInterval]: the engine's closed interval of floats. *)
Record FFloatInterval : Type := mkInterval { Min : float; Max : float }.

(** [FVector], [FBox], [FLinearColor]: engine value types, kept as tuples of
    their components. *)
Definition FVector : Type := (float * float * float)%type.
Definition FBox : Type := (FVector * FVector)%type.
Definition FLinearColor : Type := (float * float * float * float)%type.

(** ** Engine hashing *)

(** [GetTypeHash] is an overloaded free function; each hashable type brings
    its own overload. *)
Class TypeHash (T : Type) : Type := GetTypeHash : T -> Z.
#[global] Hint Mode TypeHash ! : typeclass_instances.

(** Object addresses; [0] is [nullptr]. *)
Definition UStaticMeshPtr : Type := N.
Definition UFoliageHISMPtr : Type := N.
Definition nullptr : N := 0%N.

(** ** FFoliageGeometryType *)

Record FFoliageGeometryType : Type := mkGeometry {
  Density : float;
  bRandomYaw : bool;
  ZOffset : FFloatInterval;
  Scale : FFloatInterval;
  bAlignToNormal : bool;
  Mesh : UStaticMeshPtr;
  bCollidesWithWorld : bool;
  CullingDistances : FFloatInterval;
  bAffectsDistanceFieldLighting : bool
}.

(** [operator==(const FFoliageGeometryType&, const FFoliageGeometryType&)] *)
Definition FFoliageGeometryType_eq (A B : FFoliageGeometryType) : bool :=
  float_eq (Density A) (Density B)
  && N.eqb (Mesh A) (Mesh B)
  && Bool.eqb (bCollidesWithWorld A) (bCollidesWithWorld B)
  && Bool.eqb (bAffectsDistanceFieldLighting A) (bAffectsDistanceFieldLighting B)
  && float_eq (Max (Scale A)) (Max (Scale B))
  && float_eq (Min (Scale A)) (Min (Scale B))
  && Bool.eqb (bRandomYaw A) (bRandomYaw B)
  && float_eq (Min (ZOffset A)) (Min (ZOffset B))
  && float_eq (Max (ZOffset A)) (Max (ZOffset B)).

(** The fields read by the hash and by the equality. *)
Definition key_fields (A : FFoliageGeometryType)
  : float * bool * FFloatInterval * FFloatInterval * UStaticMeshPtr * bool * bool :=
  (Density A, bRandomYaw A, ZOffset A, Scale A, Mesh A,
   bCollidesWithWorld A, bAffectsDistanceFieldLighting A).

(** No compared float field is a NaN. *)
Definition nan_free (A : FFoliageGeometryType) : bool :=
  negb (is_nan (Density A))
  && negb (is_nan (Max (Scale A))) && negb (is_nan (Min (Scale A)))
  && negb (is_nan (Min (ZOffset A))) && negb (is_nan (Max (ZOffset A))).

Section EngineHash.

(** The engine's overloads of [GetTypeHash] for the field types. *)
Context {hash_float : TypeHash float}
        {hash_bool : TypeHash bool}
        {hash_interval : TypeHash FFloatInterval}
        {hash_mesh : TypeHash UStaticMeshPtr}.

(** [GetTypeHash(const FFoliageGeometryType&)]: a [uint32] sum. *)
#[global] Instance FFoliageGeometryType_hash : TypeHash FFoliageGeometryType :=
  fun A =>
    uint32 (uint32 (uint32 (uint32 (uint32 (uint32
      (@GetTypeHash float _ (Density A) + @GetTypeHash bool _ (bRandomYaw A))
      + GetTypeHash (ZOffset A))
      + GetTypeHash (Scale A))
      + @GetTypeHash UStaticMeshPtr _ (Mesh A))
      + @GetTypeHash bool _ (bCollidesWithWorld A))
      + @GetTypeHash bool _ (bAffectsDistanceFieldLighting A)).

End EngineHash.

(** The engine's hashes of floats and of float intervals agree on arguments
    that compare equal. *)
Definition engine_hash_consistent
  {hash_float : TypeHash float} {hash_interval : TypeHash FFloatInterval} : Prop :=
  (forall a b : float, float_eq a b = true -> GetTypeHash a = GetTypeHash b)
  /\ (forall i j : FFloatInterval,
        float_eq (Min i) (Min j) = true -> float_eq (Max i) (Max j) = true ->
        GetTypeHash i = GetTypeHash j).

(** ** TMap *)

(** The engine's hash map: the stored pairs in element order and the number
    of hash buckets.  A key is searched for in the bucket its hash selects,
    among the stored keys that compare equal to it. *)
Record TMap (K V : Type) : Type := mkTMap {
  HashSize : Z;
  Elements : list (K * V)
}.
Arguments mkTMap {K V} _ _.
Arguments HashSize {K V} _.
Arguments Elements {K V} _.

(** The engine's set allocator decides how many hash buckets a table with
    a given number of pairs asks for. *)
Class TSetAllocator : Type := GetNumberOfHashBuckets : nat -> Z.

(** Bucket counts are powers of two and insertion never shrinks a table: a
    table of [size] buckets regrown for [desired] buckets has the larger of
    the two counts.  Written on the index masks [size - 1] and
    [desired - 1], which gives that count on powers of two and is defined on
    all numbers. *)
Definition GrownHashSize (size desired : Z) : Z :=
  Z.lor (size - 1) (desired - 1) + 1.

Section TMapOps.

Context {K V : Type} (key_eq : K -> K -> bool) {key_hash : TypeHash K}
        {alloc : TSetAllocator}.

Definition HashIndex (size : Z) (h : Z) : Z := Z.land h (size - 1).

(** [KeyFuncs::Matches] on an element of the bucket of [k]. *)
Definition Matches (size : Z) (k : K) (e : K * V) : bool :=
  Z.eqb (HashIndex size (GetTypeHash (fst e))) (HashIndex size (GetTypeHash k))
  && key_eq (fst e) k.

Definition Find (m : TMap K V) (k : K) : option V :=
  snd <$> List.find (Matches (HashSize m) k) (Elements m).

(** [Add]: the pair replaces the stored pair of the same key, or is new. *)
Fixpoint add_element (p : K * V -> bool) (new : K * V) (l : list (K * V))
  : list (K * V) :=
  match l with
  | [] => [new]
  | e :: l' => if p e then new :: l' else e :: add_element p new l'
  end.

(** [Add] searches the table as it is; the table is then regrown for the
    number of pairs it holds. *)
Definition Add (m : TMap K V) (k : K) (v : V) : TMap K V :=
  let pairs := add_element (Matches (HashSize m) k) (k, v) (Elements m) in
  mkTMap (GrownHashSize (HashSize m) (GetNumberOfHashBuckets (length pairs))) pairs.

(** No two stored pairs have the same key. *)
Fixpoint keys_distinct (size : Z) (l : list (K * V)) : bool :=
  match l with
  | [] => true
  | e :: l' => negb (existsb (Matches size (fst e)) l') && keys_distinct size l'
  end.

Definition KeysDistinct (m : TMap K V) : bool :=
  keys_distinct (HashSize m) (Elements m).

End TMapOps.

(** ** Components *)

(** A live [UFoliageHISM] component as the actor sees it: whether it is
    pending kill, and what [GetInstanceCount()] returns on it. *)
Record UFoliageHISM : Type := mkHISM {
  bPendingKill : bool;
  NumInstances : Z
}.

(** The engine's objects, by address.  A destroyed component has no entry. *)
Abbreviation UObjectStore := (gmap N UFoliageHISM).

(** [IsValid(V)]: not null, alive and not pending kill. *)
Definition IsValid (objs : UObjectStore) (V : UFoliageHISMPtr) : bool :=
  negb (N.eqb V nullptr)
  && match objs !! V with
     | Some o => negb (bPendingKill o)
     | None => false
     end.

(** [V->GetInstanceCount()] *)
Definition HISM_GetInstanceCount (objs : UObjectStore) (V : UFoliageHISMPtr) : Z :=
  match objs !! V with
  | Some o => NumInstances o
  | None => 0
  end.

(** The type of [HISMFoliageMap]. *)
Abbreviation FoliageMap := (TMap FFoliageGeometryType (list UFoliageHISMPtr)).

(** The body of the inner loop of [GetInstanceCount], on the pair
    ([Count], [bAnyHISMValid]). *)
Definition count_component (objs : UObjectStore) (acc : Z * bool)
  (V : UFoliageHISMPtr) : Z * bool :=
  if IsValid objs V
  then (int32 (fst acc + HISM_GetInstanceCount objs V), true)
  else acc.

(** [AFoliageCaptureActor::GetInstanceCount(float Delta)] on the pool map. *)
Definition GetInstanceCount (objs : UObjectStore) (HISMFoliageMap : FoliageMap)
  (Delta : float) : Z :=
  let '(Count, bAnyHISMValid) :=
    fold_left
      (fun acc T => fold_left (count_component objs) (snd T) acc)
      (Elements HISMFoliageMap) (0, false) in
  if bAnyHISMValid then Count else -1.

(** The live instances of one pool, and of all pools. *)
Definition pool_instances (objs : UObjectStore) (pool : list UFoliageHISMPtr) : Z :=
  fold_right
    (fun V s => if IsValid objs V then HISM_GetInstanceCount objs V + s else s)
    0 pool.

Definition live_instances (objs : UObjectStore) (HISMFoliageMap : FoliageMap) : Z :=
  fold_right (fun T s => pool_instances objs (snd T) + s) 0
    (Elements HISMFoliageMap).

Definition any_valid (objs : UObjectStore) (HISMFoliageMap : FoliageMap) : bool :=
  existsb (fun T => existsb (IsValid objs) (snd T)) (Elements HISMFoliageMap).

(** ** Configuration and actor *)

Module FFoliageClassificationType.
Record t : Type := mk {
  Type_ : string;
  ColourClassification : FLinearColor;
  FoliageTypes : list FFoliageGeometryType;
  bAlignToSurfaceWithRaycast : bool;
  PooledHISMsToCreatePerFoliageType : Z
}.
End FFoliageClassificationType.

Record AFoliageCaptureActor : Type := mkActor {
  FoliageTypes : list FFoliageClassificationType.t;
  Georeference : N;
  CaptureElevation : float;
  CaptureWidth : float;
  UpdateFoliageAfterNumFrames : Z;
  MaxComponentsToUpdatePerFrame : Z;
  GridSize : Z * Z * Z;
  CaptureWidthInDegrees : double;
  HISMFoliageMap : FoliageMap;
  bIsBuilding : bool;
  Ticks : Z
}.

Definition set_bIsBuilding (b : bool) (a : AFoliageCaptureActor) : AFoliageCaptureActor :=
  mkActor (FoliageTypes a) (Georeference a) (CaptureElevation a) (CaptureWidth a)
    (UpdateFoliageAfterNumFrames a) (MaxComponentsToUpdatePerFrame a) (GridSize a)
    (CaptureWidthInDegrees a) (HISMFoliageMap a) b (Ticks a).

Definition set_HISMFoliageMap (m : FoliageMap) (a : AFoliageCaptureActor) : AFoliageCaptureActor :=
  mkActor (FoliageTypes a) (Georeference a) (CaptureElevation a) (CaptureWidth a)
    (UpdateFoliageAfterNumFrames a) (MaxComponentsToUpdatePerFrame a) (GridSize a)
    (CaptureWidthInDegrees a) m (bIsBuilding a) (Ticks a).

(** ** Readback requests *)

(** The delegate [FOnRenderTargetRead] handed to a readback: the only one the
    actor binds is the continuation of a build, which keeps the world bounds
    of that build. *)
Inductive FOnRenderTargetRead : Type :=
| BuildContinuation (RTWorldBounds : FBox).

Record ReadbackRequest : Type := mkRequest {
  request_id : nat;
  OnRenderTargetRead : FOnRenderTargetRead;
  RTs : list N
}.

(** Modelled from the spec: the body of [ReadLinearColorPixelsAsync] and the
    task it hands to the worker threads are not in the header.  The service
    keeps the requests whose copy has not finished, in the order they were
    made, and a log of the delegate invocations as (request, success flag). *)
Record BufferReadbackService : Type := mkService {
  pending : list ReadbackRequest;
  invoked : list (nat * bool);
  next_request : nat
}.

(** The actor together with what it shares with the engine. *)
Record World : Type := mkWorld {
  actor : AFoliageCaptureActor;
  objects : UObjectStore;
  next_object : N;
  readback : BufferReadbackService
}.

Definition set_actor (a : AFoliageCaptureActor) (w : World) : World :=
  mkWorld a (objects w) (next_object w) (readback w).

Definition set_readback (s : BufferReadbackService) (w : World) : World :=
  mkWorld (actor w) (objects w) (next_object w) s.

(** Modelled from the spec: [IsBuilding()] is only declared in the header; it
    reports the busy flag. *)
Definition IsBuilding (w : World) : bool := bIsBuilding (actor w).

(** [GetInstanceCount] on the actor's own map. *)
Definition instanceCount (w : World) (Delta : float) : Z :=
  GetInstanceCount (objects w) (HISMFoliageMap (actor w)) Delta.

(** ** The readback service *)

(** Modelled from the spec: [ReadLinearColorPixelsAsync] returns at once; it
    leaves a request with the service, which copies the pixels off the
    rendering path and then invokes the delegate with a success flag.  The
    image buffers, read flags, rectangle and exit thread of the declaration
    do not influence when the delegate is invoked and are left out. *)
Definition ReadLinearColorPixelsAsync (OnRead : FOnRenderTargetRead)
  (RenderTargets : list N) (s : BufferReadbackService) : BufferReadbackService :=
  mkService (pending s ++ [mkRequest (next_request s) OnRead RenderTargets])
            (invoked s) (S (next_request s)).

Definition is_request (id : nat) (r : ReadbackRequest) : bool :=
  Nat.eqb (request_id r) id.

(** Modelled from the spec: the copy of request [id] finishes with outcome
    [bSuccess].  The request leaves the service and its delegate is handed
    out for invocation with that flag; a failed copy is reported through the
    flag.  A request that is not pending hands out nothing. *)
Definition finish_copy (id : nat) (bSuccess : bool) (s : BufferReadbackService)
  : BufferReadbackService * option FOnRenderTargetRead :=
  match List.find (is_request id) (pending s) with
  | Some r =>
      (mkService (List.filter (fun r' => negb (is_request id r')) (pending s))
                 (invoked s ++ [(id, bSuccess)]) (next_request s),
       Some (OnRenderTargetRead r))
  | None => (s, None)
  end.

(** What happens to the service: a request is made, or a copy finishes. *)
Inductive service_event : Type :=
| EvRequest (OnRead : FOnRenderTargetRead) (RenderTargets : list N)
| EvFinish (id : nat) (bSuccess : bool).

Definition service_step (s : BufferReadbackService) (ev : service_event)
  : BufferReadbackService :=
  match ev with
  | EvRequest OnRead RenderTargets => ReadLinearColorPixelsAsync OnRead RenderTargets s
  | EvFinish id bSuccess => fst (finish_copy id bSuccess s)
  end.

Definition service_run (evs : list service_event) (s : BufferReadbackService)
  : BufferReadbackService :=
  fold_left service_step evs s.

(** How often the delegate of request [id] was invoked, and with which flags. *)
Definition invocations (id : nat) (s : BufferReadbackService) : list bool :=
  snd <$> List.filter (fun x => Nat.eqb (fst x) id) (invoked s).

Definition is_pending (id : nat) (s : BufferReadbackService) : bool :=
  existsb (is_request id) (pending s).

(** Request numbers are handed out once. *)
Definition service_wf (s : BufferReadbackService) : Prop :=
  (forall r, In r (pending s) -> (request_id r < next_request s)%nat)
  /\ (forall x, In x (invoked s) -> (fst x < next_request s)%nat)
  /\ (forall r, In r (pending s) -> invocations (request_id r) s = []).

Definition empty_service : BufferReadbackService := mkService [] [] 0.

(** The outcome of the first copy of request [id] that finishes in [evs]. *)
Fixpoint first_finish (id : nat) (evs : list service_event) : option bool :=
  match evs with
  | [] => None
  | EvRequest _ _ :: evs' => first_finish id evs'
  | EvFinish id' bSuccess :: evs' =>
      if Nat.eqb id' id then Some bSuccess else first_finish id evs'
  end.

(** A delegate invocation: the request, its delegate and the success flag. *)
Definition DelegateCall : Type := (nat * FOnRenderTargetRead * bool)%type.

(** Modelled from the spec: the invocations the service makes at one event.
    A request invokes nothing; a copy that finishes invokes the delegate
    that [finish_copy] hands out, with the outcome of the copy. *)
Definition step_calls (s : BufferReadbackService) (ev : service_event)
  : list DelegateCall :=
  match ev with
  | EvRequest _ _ => []
  | EvFinish id bSuccess =>
      match snd (finish_copy id bSuccess s) with
      | Some OnRead => [(id, OnRead, bSuccess)]
      | None => []
      end
  end.

(** The invocations made along a run, in order. *)
Fixpoint run_calls (evs : list service_event) (s : BufferReadbackService)
  : list DelegateCall :=
  match evs with
  | [] => []
  | ev :: evs' => step_calls s ev ++ run_calls evs' (service_step s ev)
  end.




(** ** The build state machine *)

Section Orchestrator.

(** The sampling and distribution stages that follow a successful readback;
    their bodies are not in the header and no property below depends on
    them. *)
Variable SampleAndDistribute : FBox -> World -> World.

(** Modelled from the spec: the continuation of a build, invoked by the
    readback service.  On failure the build is abandoned: the busy flag is
    cleared and nothing else is touched.  On success the pixels go on to
    sampling and distribution. *)
Definition ExecuteIfBound (OnRead : FOnRenderTargetRead) (bSuccess : bool)
  (w : World) : World :=
  match OnRead with
  | BuildContinuation RTWorldBounds =>
      if bSuccess then SampleAndDistribute RTWorldBounds w
      else set_actor (set_bIsBuilding false (actor w)) w
  end.

(** Modelled from the spec: the body of [BuildFoliageTransforms] is not in
    the header.  A request made while a build is in flight is rejected;
    otherwise the busy flag is set and one readback of the two render targets
    is requested, after which the call returns. *)
Definition BuildFoliageTransforms (FoliageDistributionMap NormalAndDepthMap : N)
  (RTWorldBounds : FBox) (w : World) : World :=
  if bIsBuilding (actor w) then w
  else
    set_readback
      (ReadLinearColorPixelsAsync (BuildContinuation RTWorldBounds)
         [FoliageDistributionMap; NormalAndDepthMap] (readback w))
      (set_actor (set_bIsBuilding true (actor w)) w).

(** Modelled from the spec: the copy of request [id] finishes and the
    service invokes the delegate of that request, once, with the outcome. *)
Definition readback_finished (id : nat) (bSuccess : bool) (w : World) : World :=
  match finish_copy id bSuccess (readback w) with
  | (s, Some OnRead) => ExecuteIfBound OnRead bSuccess (set_readback s w)
  | (_, None) => w
  end.

End Orchestrator.

(** ** The pool map *)

Section PoolManager.

Context {hash_float : TypeHash float}
        {hash_bool : TypeHash bool}
        {hash_interval : TypeHash FFloatInterval}
        {hash_mesh : TypeHash UStaticMeshPtr}
        {alloc : TSetAllocator}.

(** Lookup and insertion on [HISMFoliageMap], with the key's own equality and
    hash. *)
Definition FindPool (m : FoliageMap) (k : FFoliageGeometryType)
  : option (list UFoliageHISMPtr) :=
  Find FFoliageGeometryType_eq m k.

Definition AddPool (m : FoliageMap) (k : FFoliageGeometryType)
  (pool : list UFoliageHISMPtr) : FoliageMap :=
  Add FFoliageGeometryType_eq m k pool.

End PoolManager.

(** ** Sample values *)

(** An engine whose hashes agree on equal arguments, and values to evaluate
    the definitions on. *)
Module SampleEngine.

(** The binary32 encoding of a float: sign, biased exponent, fraction. *)
Definition float_bits (a : float) : Z :=
  match a with
  | S754_zero s => if s then 2 ^ 31 else 0
  | S754_infinity s => (if s then 2 ^ 31 else 0) + 2139095040
  | S754_nan => 2143289344
  | S754_finite s m e =>
      uint32 ((if s then 2 ^ 31 else 0) + (e + 149) * 2 ^ 23 + Z.pos m)
  end.

(** A hash of the encoding, the two zeros taken together. *)
Definition hash_float : TypeHash float := fun a =>
  match a with
  | S754_zero _ => 0
  | _ => float_bits a
  end.

(** A hash of the bare encoding. *)
Definition bitwise_hash_float : TypeHash float := float_bits.

(** A hash of the encoding rotated left by one bit, which brings the sign
    to the lowest bit. *)
Definition rotated_hash_float : TypeHash float := fun a =>
  uint32 (float_bits a * 2 + float_bits a / 2 ^ 31).

Definition hash_bool : TypeHash bool := fun b => if b then 1 else 0.

(** One bucket below four pairs; from there the next power of two above
    half the number of pairs plus eight. *)
Definition buckets : TSetAllocator := fun n =>
  if (n <? 4)%nat then 1 else 2 ^ Z.log2_up (Z.of_nat n / 2 + 8).

Definition hash_interval : TypeHash FFloatInterval := fun i =>
  uint32 (hash_float (Min i) * 23 + hash_float (Max i)).

Definition hash_mesh : TypeHash UStaticMeshPtr := fun p => uint32 (Z.of_N p).

Definition hash_geometry : TypeHash FFoliageGeometryType :=
  @FFoliageGeometryType_hash hash_float hash_bool hash_interval hash_mesh.

Definition bitwise_hash_geometry : TypeHash FFoliageGeometryType :=
  @FFoliageGeometryType_hash bitwise_hash_float hash_bool hash_interval hash_mesh.

Definition rotated_hash_geometry : TypeHash FFoliageGeometryType :=
  @FFoliageGeometryType_hash rotated_hash_float hash_bool hash_interval hash_mesh.

(** [2^e] as a float *)
Definition pow2 (e : Z) : float := S754_finite false 8388608 (e - 23).

Definition zero : float := S754_zero false.
Definition neg_zero : float := S754_zero true.

(** A geometry type with the default member values of the header. *)
Definition default_geometry (mesh : UStaticMeshPtr) : FFoliageGeometryType :=
  mkGeometry (pow2 (-1)) false (mkInterval zero zero)
    (mkInterval (pow2 0) (pow2 0)) false mesh true
    (mkInterval (pow2 12) (pow2 15)) false.

Definition set_Density (d : float) (A : FFoliageGeometryType) : FFoliageGeometryType :=
  mkGeometry d (bRandomYaw A) (ZOffset A) (Scale A) (bAlignToNormal A) (Mesh A)
    (bCollidesWithWorld A) (CullingDistances A) (bAffectsDistanceFieldLighting A).

Definition set_placement (align : bool) (culling : FFloatInterval)
  (A : FFoliageGeometryType) : FFoliageGeometryType :=
  mkGeometry (Density A) (bRandomYaw A) (ZOffset A) (Scale A) align (Mesh A)
    (bCollidesWithWorld A) culling (bAffectsDistanceFieldLighting A).

Definition grass : FFoliageGeometryType := default_geometry 7%N.

(** The same mesh and placement, aligned to the normal and culled sooner. *)
Definition grass_aligned : FFoliageGeometryType :=
  set_placement true (mkInterval (pow2 10) (pow2 12)) grass.

(** A geometry type whose density is not a number. *)
Definition grass_nan : FFoliageGeometryType := set_Density S754_nan grass.

Definition grass_nan_aligned : FFoliageGeometryType :=
  set_placement true (mkInterval (pow2 10) (pow2 12)) grass_nan.

(** Densities [+0.0] and [-0.0]. *)
Definition bare : FFoliageGeometryType := set_Density zero grass.
Definition bare_neg : FFoliageGeometryType := set_Density neg_zero grass.

(** Three components, one of them pending kill; address 9 is destroyed. *)
Definition components : UObjectStore :=
  <[1%N := mkHISM false 10]> (<[2%N := mkHISM true 5]> (<[3%N := mkHISM false 7]> ∅)).

Definition pools : FoliageMap :=
  mkTMap 8 [(grass, [1%N; 2%N; nullptr]); (bare, [3%N; 9%N])].

(** Pools whose components are all gone. *)
Definition dead_pools : FoliageMap :=
  mkTMap 8 [(grass, [2%N; nullptr]); (bare, [9%N])].

Definition box : FBox := ((zero, zero, zero), (pow2 17, pow2 17, pow2 10)).

Definition configuration : list FFoliageClassificationType.t :=
  [FFoliageClassificationType.mk "Grass" (zero, pow2 0, zero, pow2 0)
     [grass; grass_aligned] false 4;
   FFoliageClassificationType.mk "Rock" (pow2 (-1), pow2 (-1), pow2 (-1), pow2 0)
     [bare; bare_neg] true 2].

Definition idle_actor : AFoliageCaptureActor :=
  mkActor configuration 0%N (pow2 10) (pow2 17) 2 1 (0, 0, 0) (pow2 (-7))
    pools false 0.

Definition idle_world : World := mkWorld idle_actor components 10%N empty_service.

(** The same world while a build is in flight. *)
Definition busy_world : World :=
  mkWorld (set_bIsBuilding true idle_actor) components 10%N
    (ReadLinearColorPixelsAsync (BuildContinuation box) [20%N; 21%N] empty_service).

End SampleEngine.

(** ** Notions used to state further properties *)

(** A float with the sign of a zero dropped. *)
Definition canon_float (a : float) : float :=
  match a with
  | S754_zero _ => S754_zero false
  | _ => a
  end.

(** The compared fields of a geometry type, zeros without their sign. *)
Definition canon_key (A : FFoliageGeometryType)
  : float * UStaticMeshPtr * bool * bool * float * float * bool * float * float :=
  (canon_float (Density A), Mesh A, bCollidesWithWorld A,
   bAffectsDistanceFieldLighting A,
   canon_float (Max (Scale A)), canon_float (Min (Scale A)), bRandomYaw A,
   canon_float (Min (ZOffset A)), canon_float (Max (ZOffset A))).

(** Two floats do not differ in the sign of a zero. *)
Definition same_zero (a b : float) : bool :=
  match a, b with
  | S754_zero s, S754_zero s' => Bool.eqb s s'
  | _, _ => true
  end.

(** The compared floats of two geometry types agree in the sign of every
    zero. *)
Definition same_zeros (A B : FFoliageGeometryType) : bool :=
  same_zero (Density A) (Density B)
  && same_zero (Max (Scale A)) (Max (Scale B))
  && same_zero (Min (Scale A)) (Min (Scale B))
  && same_zero (Min (ZOffset A)) (Min (ZOffset B))
  && same_zero (Max (ZOffset A)) (Max (ZOffset B)).

(** The geometry type with [ZOffset] and [Scale] exchanged. *)
Definition swap_intervals (A : FFoliageGeometryType) : FFoliageGeometryType :=
  mkGeometry (Density A) (bRandomYaw A) (Scale A) (ZOffset A) (bAlignToNormal A)
    (Mesh A) (bCollidesWithWorld A) (CullingDistances A)
    (bAffectsDistanceFieldLighting A).

(** The geometry type with its three hashed flags rotated: [bRandomYaw]
    takes the value of [bCollidesWithWorld], that one the value of
    [bAffectsDistanceFieldLighting], and that one the value of [bRandomYaw]. *)
Definition rotate_flags (A : FFoliageGeometryType) : FFoliageGeometryType :=
  mkGeometry (Density A) (bCollidesWithWorld A) (ZOffset A) (Scale A)
    (bAlignToNormal A) (Mesh A) (bAffectsDistanceFieldLighting A)
    (CullingDistances A) (bRandomYaw A).

(** All components of all pools, in iteration order. *)
Definition all_components (m : FoliageMap) : list UFoliageHISMPtr :=
  concat (List.map snd (Elements m)).

(** The map with the invalid components taken out of every pool. *)
Definition valid_components (objs : UObjectStore) (m : FoliageMap) : FoliageMap :=
  mkTMap (HashSize m)
    (List.map (fun T => (fst T, List.filter (IsValid objs) (snd T))) (Elements m)).

(** The pools of two maps, one after the other. *)
Definition append_pools (m1 m2 : FoliageMap) : FoliageMap :=
  mkTMap (HashSize m1) (Elements m1 ++ Elements m2).

(** * Properties *)

(** ** IEEE equality is a partial equivalence *)

Lemma float_eq_finite sa ma ea sb mb eb :
  float_eq (S754_finite sa ma ea) (S754_finite sb mb eb) = true ->
  sa = sb /\ ma = mb /\ ea = eb.
Proof.
  unfold float_eq, SFeqb, SFcompare.
  destruct sa, sb; try discriminate;
    destruct (ea ?= eb) eqn:He; try discriminate;
    apply Z.compare_eq in He; subst;
    destruct (Pos.compare_cont Eq ma mb) eqn:Hm; try discriminate;
    apply Pos.compare_eq in Hm; subst; auto.
Qed.

Lemma float_eq_refl (a : float) : float_eq a a = negb (is_nan a).
Proof.
  unfold float_eq, SFeqb, SFcompare.
  destruct a as [s|s| |s m e]; try reflexivity; try (destruct s; reflexivity).
  destruct s; rewrite Z.compare_refl;
    change (Pos.compare_cont Eq m m) with (Pos.compare m m);
    rewrite Pos.compare_refl; reflexivity.
Qed.

Lemma float_eq_iff (a b : float) : float_eq a b = true <-> float_same a b.
Proof.
  split.
  - destruct a as [sa|sa| |sa ma ea], b as [sb|sb| |sb mb eb]; simpl;
      try (intros _; exact I); try (intros H; discriminate H);
      try (destruct sa; intros H; discriminate H);
      try (destruct sb; intros H; discriminate H).
    + destruct sa, sb; intros H; (discriminate H || (split; reflexivity)).
    + intros H. apply float_eq_finite in H as (-> & -> & ->). split; reflexivity.
  - destruct a as [sa|sa| |sa ma ea], b as [sb|sb| |sb mb eb]; simpl;
      try (intros _; reflexivity); try (intros [H _]; discriminate H);
      try (intros [_ H]; discriminate H).
    + intros [H _]. injection H as ->. rewrite float_eq_refl. reflexivity.
    + intros [H _]. injection H as -> -> ->. rewrite float_eq_refl. reflexivity.
Qed.

Lemma float_same_sym (a b : float) : float_same a b -> float_same b a.
Proof.
  destruct a, b; simpl; try tauto; intros [H Hn]; try discriminate H;
    rewrite <- H; auto.
Qed.

Lemma float_same_trans (a b c : float) :
  float_same a b -> float_same b c -> float_same a c.
Proof.
  destruct a, b, c; simpl; try tauto;
    try (intros [H _]; discriminate H); try (intros _ [H _]; discriminate H);
    intros [H1 Hn] [H2 _]; split; congruence.
Qed.

Lemma float_eq_sym (a b : float) : float_eq a b = float_eq b a.
Proof.
  apply eq_true_iff_eq. rewrite !float_eq_iff.
  split; apply float_same_sym.
Qed.

Lemma float_eq_trans (a b c : float) :
  float_eq a b = true -> float_eq b c = true -> float_eq a c = true.
Proof. rewrite !float_eq_iff. apply float_same_trans. Qed.

(** ** The equality of geometry types *)

(** The nine comparisons of [operator==], as propositions. *)
Lemma FFoliageGeometryType_eq_fields (A B : FFoliageGeometryType) :
  FFoliageGeometryType_eq A B = true <->
  float_eq (Density A) (Density B) = true
  /\ Mesh A = Mesh B
  /\ bCollidesWithWorld A = bCollidesWithWorld B
  /\ bAffectsDistanceFieldLighting A = bAffectsDistanceFieldLighting B
  /\ float_eq (Max (Scale A)) (Max (Scale B)) = true
  /\ float_eq (Min (Scale A)) (Min (Scale B)) = true
  /\ bRandomYaw A = bRandomYaw B
  /\ float_eq (Min (ZOffset A)) (Min (ZOffset B)) = true
  /\ float_eq (Max (ZOffset A)) (Max (ZOffset B)) = true.
Proof.
  unfold FFoliageGeometryType_eq.
  rewrite !andb_true_iff, N.eqb_eq, !eqb_true_iff. tauto.
Qed.

Lemma FFoliageGeometryType_eq_sym (A B : FFoliageGeometryType) :
  FFoliageGeometryType_eq A B = FFoliageGeometryType_eq B A.
Proof.
  unfold FFoliageGeometryType_eq.
  rewrite (float_eq_sym (Density A)), (N.eqb_sym (Mesh A)),
    (float_eq_sym (Max (Scale A))), (float_eq_sym (Min (Scale A))),
    (float_eq_sym (Min (ZOffset A))), (float_eq_sym (Max (ZOffset A))).
  destruct (bCollidesWithWorld A), (bCollidesWithWorld B),
    (bAffectsDistanceFieldLighting A), (bAffectsDistanceFieldLighting B),
    (bRandomYaw A), (bRandomYaw B); reflexivity.
Qed.

Lemma FFoliageGeometryType_eq_trans (A B C : FFoliageGeometryType) :
  FFoliageGeometryType_eq A B = true -> FFoliageGeometryType_eq B C = true ->
  FFoliageGeometryType_eq A C = true.
Proof.
  rewrite !FFoliageGeometryType_eq_fields.
  intros (H1 & H2 & H3 & H4 & H5 & H6 & H7 & H8 & H9)
         (G1 & G2 & G3 & G4 & G5 & G6 & G7 & G8 & G9).
  repeat split; try congruence; eapply float_eq_trans; eassumption.
Qed.

(** A value compares equal to itself unless a compared float is a NaN. *)
Lemma FFoliageGeometryType_eq_refl (A : FFoliageGeometryType) :
  FFoliageGeometryType_eq A A = nan_free A.
Proof.
  unfold FFoliageGeometryType_eq, nan_free.
  rewrite !float_eq_refl, N.eqb_refl, !eqb_reflx, !andb_true_r. reflexivity.
Qed.

(** Equality reads the key fields only. *)
Lemma FFoliageGeometryType_eq_key_l (A B C : FFoliageGeometryType) :
  key_fields A = key_fields B ->
  FFoliageGeometryType_eq A C = FFoliageGeometryType_eq B C.
Proof.
  unfold key_fields, FFoliageGeometryType_eq. intros H.
  injection H as -> -> -> -> -> -> ->. reflexivity.
Qed.

Lemma FFoliageGeometryType_eq_key_r (A B C : FFoliageGeometryType) :
  key_fields A = key_fields B ->
  FFoliageGeometryType_eq C A = FFoliageGeometryType_eq C B.
Proof.
  intros H. rewrite (FFoliageGeometryType_eq_sym C A), (FFoliageGeometryType_eq_sym C B).
  apply FFoliageGeometryType_eq_key_l, H.
Qed.

Section HashFacts.

Context {hash_float : TypeHash float}
        {hash_bool : TypeHash bool}
        {hash_interval : TypeHash FFloatInterval}
        {hash_mesh : TypeHash UStaticMeshPtr}.

(** The hash reads the key fields only. *)
Lemma GetTypeHash_key (A B : FFoliageGeometryType) :
  key_fields A = key_fields B ->
  GetTypeHash A = GetTypeHash B.
Proof.
  intros H. change (FFoliageGeometryType_hash A = FFoliageGeometryType_hash B).
  unfold key_fields in H. unfold FFoliageGeometryType_hash.
  injection H as -> -> -> -> -> -> ->. reflexivity.
Qed.

(** The hash is a [uint32]. *)
Lemma GetTypeHash_range (A : FFoliageGeometryType) :
  0 <= GetTypeHash A < 2 ^ 32.
Proof.
  change (0 <= FFoliageGeometryType_hash A < 2 ^ 32).
  unfold FFoliageGeometryType_hash, uint32.
  apply Z.mod_pos_bound. lia.
Qed.

End HashFacts.

(** ** Lookup and insertion in a TMap *)

Lemma find_none {A : Type} (p : A -> bool) (l : list A) :
  (forall e, In e l -> p e = false) -> List.find p l = None.
Proof.
  induction l as [|e l IH]; intros H; simpl; [reflexivity|].
  rewrite (H e (or_introl eq_refl)). apply IH.
  intros x Hx. apply H. now right.
Qed.

Lemma land_lor_absorb (a b : Z) : Z.land (Z.lor a b) a = a.
Proof.
  apply Z.bits_inj'. intros n _. rewrite Z.land_spec, Z.lor_spec.
  destruct (Z.testbit a n), (Z.testbit b n); reflexivity.
Qed.

(** Keys that share a bucket of the regrown table shared one before. *)
Lemma HashIndex_grown (size desired h h' : Z) :
  HashIndex (GrownHashSize size desired) h = HashIndex (GrownHashSize size desired) h' ->
  HashIndex size h = HashIndex size h'.
Proof.
  unfold HashIndex, GrownHashSize.
  replace (Z.lor (size - 1) (desired - 1) + 1 - 1)
    with (Z.lor (size - 1) (desired - 1)) by ring.
  intros H.
  rewrite <- (land_lor_absorb (size - 1) (desired - 1)), !Z.land_assoc, H.
  reflexivity.
Qed.

(** On powers of two the regrown table has the larger number of buckets. *)
Lemma GrownHashSize_pow2 (a b : Z) :
  0 <= a -> 0 <= b -> GrownHashSize (2 ^ a) (2 ^ b) = 2 ^ Z.max a b.
Proof.
  intros Ha Hb. unfold GrownHashSize.
  rewrite !Z.sub_1_r, <- !Z.ones_equiv.
  assert (H : Z.lor (Z.ones a) (Z.ones b) = Z.ones (Z.max a b)).
  { apply Z.bits_inj'. intros n Hn.
    rewrite Z.lor_spec, !Z.testbit_ones_nonneg by lia.
    destruct (Z.ltb_spec n a), (Z.ltb_spec n b), (Z.ltb_spec n (Z.max a b));
      try reflexivity; lia. }
  rewrite H, Z.ones_equiv. lia.
Qed.

Section TMapFacts.

Context {K V : Type} (key_eq : K -> K -> bool) {key_hash : TypeHash K}.

(** Two keys that hash alike and that no stored key tells apart are looked
    up alike. *)
Lemma Matches_ext (size : Z) (k k' : K) (e : K * V) :
  GetTypeHash k = GetTypeHash k' ->
  (forall c, key_eq c k = key_eq c k') ->
  Matches key_eq size k e = Matches key_eq size k' e.
Proof. unfold Matches. intros -> ->. reflexivity. Qed.

Lemma Find_ext (m : TMap K V) (k k' : K) :
  GetTypeHash k = GetTypeHash k' ->
  (forall c, key_eq c k = key_eq c k') ->
  Find key_eq m k = Find key_eq m k'.
Proof.
  intros Hh He. unfold Find. f_equal.
  induction (Elements m) as [|e l IH]; simpl; [reflexivity|].
  rewrite (Matches_ext _ k k' e Hh He), IH. reflexivity.
Qed.

Lemma In_add_element (p : K * V -> bool) (new e : K * V) (l : list (K * V)) :
  In e (add_element p new l) -> e = new \/ In e l.
Proof.
  induction l as [|x l IH]; simpl.
  - intros [<- | []]. now left.
  - destruct (p x); simpl; intros [<- | H]; auto.
    destruct (IH H); auto.
Qed.

Hypothesis key_eq_sym : forall a b, key_eq a b = key_eq b a.
Hypothesis key_eq_trans :
  forall a b c, key_eq a b = true -> key_eq b c = true -> key_eq a c = true.

(** An element in the bucket of two keys and equal to both makes each key
    match the other. *)
Lemma Matches_common (size : Z) (k k' : K) (v : V) (e : K * V) :
  Matches key_eq size k e = true -> Matches key_eq size k' e = true ->
  Matches key_eq size k' (k, v) = true.
Proof.
  unfold Matches. simpl. intros H1 H2.
  apply andb_true_iff in H1 as [B1 E1]. apply andb_true_iff in H2 as [B2 E2].
  apply Z.eqb_eq in B1, B2. apply andb_true_iff. split.
  - apply Z.eqb_eq. congruence.
  - rewrite key_eq_sym in E1. eapply key_eq_trans; eassumption.
Qed.

Lemma Matches_via (size : Z) (k k' : K) (v : V) (e : K * V) :
  Matches key_eq size k e = true -> Matches key_eq size k' (k, v) = true ->
  Matches key_eq size k' e = true.
Proof.
  unfold Matches. simpl. intros H1 H2.
  apply andb_true_iff in H1 as [B1 E1]. apply andb_true_iff in H2 as [B2 E2].
  apply Z.eqb_eq in B1, B2. apply andb_true_iff. split.
  - apply Z.eqb_eq. congruence.
  - eapply key_eq_trans; eassumption.
Qed.

(** A table that is regrown only splits its buckets. *)
Lemma Matches_grown (size desired : Z) (k : K) (e : K * V) :
  Matches key_eq (GrownHashSize size desired) k e = true ->
  Matches key_eq size k e = true.
Proof.
  unfold Matches. intros H. apply andb_true_iff in H as [B E].
  apply Z.eqb_eq in B. apply HashIndex_grown in B.
  rewrite B, Z.eqb_refl, E. reflexivity.
Qed.

(** A key that equals itself is found again after it was added, in the
    table as it was and in the regrown one. *)
Lemma find_add_element_same (size desired : Z) (k : K) (v : V) (l : list (K * V)) :
  key_eq k k = true ->
  List.find (Matches key_eq (GrownHashSize size desired) k)
    (add_element (Matches key_eq size k) (k, v) l) = Some (k, v).
Proof.
  intros Hk.
  assert (Hm : Matches key_eq (GrownHashSize size desired) k (k, v) = true).
  { unfold Matches. simpl. rewrite Z.eqb_refl, Hk. reflexivity. }
  induction l as [|e l IH]; simpl.
  - rewrite Hm. reflexivity.
  - destruct (Matches key_eq size k e) eqn:He; simpl.
    + rewrite Hm. reflexivity.
    + destruct (Matches key_eq (GrownHashSize size desired) k e) eqn:He';
        [|exact IH].
      rewrite (Matches_grown size desired k e He') in He. discriminate.
Qed.

Lemma Find_Add_same {alloc : TSetAllocator} (m : TMap K V) (k : K) (v : V) :
  key_eq k k = true -> Find key_eq (Add key_eq m k v) k = Some v.
Proof.
  intros Hk. unfold Find, Add. simpl.
  rewrite (find_add_element_same _ _ k v (Elements m) Hk). reflexivity.
Qed.

(** Adding under a key leaves the lookups of the keys that differ from it,
    as long as the table keeps its buckets. *)
Lemma find_add_element_unrelated (size : Z) (k k' : K) (v : V) (l : list (K * V)) :
  key_eq k k' = false ->
  List.find (Matches key_eq size k') (add_element (Matches key_eq size k) (k, v) l)
  = List.find (Matches key_eq size k') l.
Proof.
  intros Hne.
  assert (Hnew : Matches key_eq size k' (k, v) = false).
  { unfold Matches. simpl. rewrite Hne. apply andb_false_r. }
  induction l as [|e l IH]; simpl.
  - rewrite Hnew. reflexivity.
  - destruct (Matches key_eq size k e) eqn:Hk; simpl.
    + rewrite Hnew.
      destruct (Matches key_eq size k' e) eqn:Hk'; [|reflexivity].
      rewrite (Matches_common size k k' v e Hk Hk') in Hnew. discriminate.
    + destruct (Matches key_eq size k' e); [reflexivity | exact IH].
Qed.

(** Insertion keeps the stored keys distinct. *)
Lemma keys_distinct_add (size : Z) (k : K) (v : V) (l : list (K * V)) :
  keys_distinct key_eq size l = true ->
  keys_distinct key_eq size (add_element (Matches key_eq size k) (k, v) l) = true.
Proof.
  induction l as [|e l IH]; simpl; [reflexivity|].
  intros H. apply andb_true_iff in H as [Hn Hd].
  apply negb_true_iff in Hn.
  destruct (Matches key_eq size k e) eqn:Hk; simpl.
  - rewrite Hd, andb_true_r. apply negb_true_iff.
    apply not_true_is_false. intros Hex.
    apply existsb_exists in Hex as (x & Hx & Hm).
    assert (Matches key_eq size (fst e) x = true).
    { destruct e as [ke ve]. simpl.
      apply (Matches_via size k ke v x Hm).
      unfold Matches in *. simpl in *.
      apply andb_true_iff in Hk as [B E]. apply andb_true_iff. split.
      - apply Z.eqb_eq in B. apply Z.eqb_eq. congruence.
      - rewrite key_eq_sym. exact E. }
    assert (existsb (Matches key_eq size (fst e)) l = true)
      by (apply existsb_exists; eauto).
    congruence.
  - rewrite (IH Hd), andb_true_r. apply negb_true_iff.
    apply not_true_is_false. intros Hex.
    apply existsb_exists in Hex as (x & Hx & Hm).
    apply In_add_element in Hx as [-> | Hx].
    + unfold Matches in Hm, Hk. simpl in Hm.
      apply andb_true_iff in Hm as [B E].
      apply Z.eqb_eq in B. rewrite B, Z.eqb_refl, key_eq_sym, E in Hk.
      discriminate.
    + assert (existsb (Matches key_eq size (fst e)) l = true)
        by (apply existsb_exists; eauto).
      congruence.
Qed.

(** Regrowing keeps the stored keys distinct. *)
Lemma keys_distinct_grown (size desired : Z) (l : list (K * V)) :
  keys_distinct key_eq size l = true ->
  keys_distinct key_eq (GrownHashSize size desired) l = true.
Proof.
  induction l as [|e l IH]; simpl; [reflexivity|].
  intros H. apply andb_true_iff in H as [Hn Hd].
  rewrite (IH Hd), andb_true_r.
  apply negb_true_iff in Hn. apply negb_true_iff, not_true_is_false.
  intros Hex. apply existsb_exists in Hex as (x & Hx & Hm).
  apply Matches_grown in Hm.
  assert (existsb (Matches key_eq size (fst e)) l = true)
    by (apply existsb_exists; eauto).
  congruence.
Qed.

End TMapFacts.

(** ** Geometry types as keys of the pool map *)

Lemma float_eq_same_zero (a b : float) :
  float_eq a b = true -> same_zero a b = true -> a = b.
Proof.
  rewrite float_eq_iff.
  destruct a as [sa|sa| |sa ma ea], b as [sb|sb| |sb mb eb]; simpl;
    try (intros [H _] _; exact H).
  intros _ H. apply eqb_prop in H. congruence.
Qed.

(** Values that compare equal and agree in the sign of every zero have the
    same values in the key fields. *)
Lemma key_fields_same_zeros (A B : FFoliageGeometryType) :
  FFoliageGeometryType_eq A B = true -> same_zeros A B = true ->
  key_fields A = key_fields B.
Proof.
  intros H Hz. apply FFoliageGeometryType_eq_fields in H
    as (H1 & H2 & H3 & H4 & H5 & H6 & H7 & H8 & H9).
  unfold same_zeros in Hz. rewrite !andb_true_iff in Hz.
  destruct Hz as ((((Z1 & Z5) & Z6) & Z8) & Z9).
  pose proof (float_eq_same_zero _ _ H1 Z1) as E1.
  pose proof (float_eq_same_zero _ _ H5 Z5) as E5.
  pose proof (float_eq_same_zero _ _ H6 Z6) as E6.
  pose proof (float_eq_same_zero _ _ H8 Z8) as E8.
  pose proof (float_eq_same_zero _ _ H9 Z9) as E9.
  unfold key_fields.
  destruct A as [dA yA [zA1 zA2] [sA1 sA2] aA mA cA kA lA],
           B as [dB yB [zB1 zB2] [sB1 sB2] aB mB cB kB lB].
  simpl in *. congruence.
Qed.

Section KeyFacts.

Context {hash_float : TypeHash float}
        {hash_bool : TypeHash bool}
        {hash_interval : TypeHash FFloatInterval}
        {hash_mesh : TypeHash UStaticMeshPtr}
        {alloc : TSetAllocator}.

(** Values with the same key fields are one key: every lookup treats them
    alike. *)
Lemma FindPool_key (m : FoliageMap) (A B : FFoliageGeometryType) :
  key_fields A = key_fields B -> FindPool m A = FindPool m B.
Proof.
  intros H. unfold FindPool. apply Find_ext.
  - apply GetTypeHash_key, H.
  - intros C. apply FFoliageGeometryType_eq_key_r, H.
Qed.

(** The engine's hashes of the field types agree on equal arguments. *)
Hypothesis hash_float_eq :
  forall a b : float, float_eq a b = true -> GetTypeHash a = GetTypeHash b.
Hypothesis hash_interval_eq :
  forall i j : FFloatInterval,
    float_eq (Min i) (Min j) = true -> float_eq (Max i) (Max j) = true ->
    GetTypeHash i = GetTypeHash j.

Lemma GetTypeHash_eq (A B : FFoliageGeometryType) :
  FFoliageGeometryType_eq A B = true -> GetTypeHash A = GetTypeHash B.
Proof.
  intros H. apply FFoliageGeometryType_eq_fields in H
    as (H1 & H2 & H3 & H4 & H5 & H6 & H7 & H8 & H9).
  change (FFoliageGeometryType_hash A = FFoliageGeometryType_hash B).
  unfold FFoliageGeometryType_hash.
  rewrite (hash_float_eq _ _ H1), H2, H3, H4, H7,
    (hash_interval_eq (ZOffset A) (ZOffset B) H8 H9),
    (hash_interval_eq (Scale A) (Scale B) H6 H5).
  reflexivity.
Qed.



End KeyFacts.


(** C9, as amended.  The hash is consistent with the equality up to the
    sign of zeros and the engine's field hashes.  Values that compare equal
    and agree in the sign of every zero among the compared floats have the
    same hash, hence the same bucket whatever the number of buckets; values
    that compare equal at all have the same hash and bucket provided the
    engine's hashes of floats and float intervals agree on arguments that
    compare equal. *)
Theorem GetTypeHash_consistent
  {hash_float : TypeHash float} {hash_bool : TypeHash bool}
  {hash_interval : TypeHash FFloatInterval} {hash_mesh : TypeHash UStaticMeshPtr}
  (A B : FFoliageGeometryType) :
  FFoliageGeometryType_eq A B = true ->
  (same_zeros A B = true ->
   GetTypeHash A = GetTypeHash B
   /\ forall size, HashIndex size (GetTypeHash A) = HashIndex size (GetTypeHash B))
  /\ (engine_hash_consistent ->
      GetTypeHash A = GetTypeHash B
      /\ forall size, HashIndex size (GetTypeHash A) = HashIndex size (GetTypeHash B)).
Proof.
  intros H. split.
  - intros Hz.
    pose proof (GetTypeHash_key A B (key_fields_same_zeros A B H Hz)) as Hh.
    split; [exact Hh|]. intros size. rewrite Hh. reflexivity.
  - intros [Hf Hi]. pose proof (GetTypeHash_eq Hf Hi A B H) as Hh.
    split; [exact Hh|]. intros size. rewrite Hh. reflexivity.
Qed.

(** The sample engine's hashes agree on equal floats and intervals. *)
Lemma sample_hash_float_eq (a b : float) :
  float_eq a b = true -> SampleEngine.hash_float a = SampleEngine.hash_float b.
Proof.
  rewrite float_eq_iff.
  destruct a, b; simpl; try reflexivity; intros [H _]; try discriminate H;
    injection H; intros; subst; reflexivity.
Qed.

Lemma sample_hash_interval_eq (i j : FFloatInterval) :
  float_eq (Min i) (Min j) = true -> float_eq (Max i) (Max j) = true ->
  SampleEngine.hash_interval i = SampleEngine.hash_interval j.
Proof.
  intros H1 H2. unfold SampleEngine.hash_interval.
  rewrite (sample_hash_float_eq _ _ H1), (sample_hash_float_eq _ _ H2).
  reflexivity.
Qed.

Lemma sample_engine_consistent :
  @engine_hash_consistent SampleEngine.hash_float SampleEngine.hash_interval.
Proof. split; [exact sample_hash_float_eq | exact sample_hash_interval_eq]. Qed.



Lemma GetTypeHash_consistent_witness :
  FFoliageGeometryType_eq SampleEngine.bare SampleEngine.bare_neg = true
  /\ SampleEngine.hash_geometry SampleEngine.bare
     = SampleEngine.hash_geometry SampleEngine.bare_neg.
Proof.
  split; [reflexivity|].
  destruct (@GetTypeHash_consistent SampleEngine.hash_float SampleEngine.hash_bool
              SampleEngine.hash_interval SampleEngine.hash_mesh
              SampleEngine.bare SampleEngine.bare_neg eq_refl) as [_ H].
  apply H, sample_engine_consistent.
Defined.

(** Under a hash of the bare encoding of floats, densities [+0.0] and
    [-0.0] compare equal and hash apart; under a hash that brings the sign
    to the low bits they fall in different buckets of a table of sixteen. *)
Lemma GetTypeHash_consistent_counterexample :
  FFoliageGeometryType_eq SampleEngine.bare SampleEngine.bare_neg = true
  /\ SampleEngine.bitwise_hash_geometry SampleEngine.bare
     <> SampleEngine.bitwise_hash_geometry SampleEngine.bare_neg
  /\ HashIndex 16 (SampleEngine.rotated_hash_geometry SampleEngine.bare)
     <> HashIndex 16 (SampleEngine.rotated_hash_geometry SampleEngine.bare_neg).
Proof. split; [reflexivity|]. split; discriminate. Qed.

(** C10, as amended.  The hash and the equality do not read [bAlignToNormal]
    and [CullingDistances]: two values that differ in nothing else have the
    same hash and find the same pool in every pool map.  They compare equal
    exactly when none of the compared floats (density, scale bounds, offset
    bounds) is a NaN, and then they share one entry: a pool added under one
    is the pool found under the other. *)
Theorem placement_fields_ignored
  {hash_float : TypeHash float} {hash_bool : TypeHash bool}
  {hash_interval : TypeHash FFloatInterval} {hash_mesh : TypeHash UStaticMeshPtr}
  {alloc : TSetAllocator}
  (A B : FFoliageGeometryType) :
  key_fields A = key_fields B ->
  GetTypeHash A = GetTypeHash B
  /\ (forall m : FoliageMap, FindPool m A = FindPool m B)
  /\ FFoliageGeometryType_eq A B = nan_free A
  /\ (nan_free A = true ->
      forall (m : FoliageMap) pool, FindPool (AddPool m A pool) B = Some pool).
Proof.
  intros H. split; [apply GetTypeHash_key, H|].
  split; [intros m; apply FindPool_key, H|].
  split.
  - rewrite <- (FFoliageGeometryType_eq_key_r A B A H).
    apply FFoliageGeometryType_eq_refl.
  - intros Hn m pool. rewrite <- (FindPool_key _ A B H).
    unfold FindPool, AddPool. apply Find_Add_same.
    rewrite FFoliageGeometryType_eq_refl. exact Hn.
Qed.

Lemma placement_fields_ignored_witness :
  key_fields SampleEngine.grass = key_fields SampleEngine.grass_aligned
  /\ SampleEngine.hash_geometry SampleEngine.grass
     = SampleEngine.hash_geometry SampleEngine.grass_aligned
  /\ FFoliageGeometryType_eq SampleEngine.grass SampleEngine.grass_aligned = true.
Proof.
  split; [reflexivity|].
  destruct (@placement_fields_ignored SampleEngine.hash_float SampleEngine.hash_bool
              SampleEngine.hash_interval SampleEngine.hash_mesh SampleEngine.buckets
              SampleEngine.grass SampleEngine.grass_aligned eq_refl)
    as (Hh & _ & He & _).
  split; [exact Hh | exact He].
Defined.

(** A NaN density: the two values differ only in [bAlignToNormal] and
    [CullingDistances], yet they do not compare equal, and added one after
    the other they take two entries of the pool map. *)
Lemma placement_fields_ignored_counterexample :
  key_fields SampleEngine.grass_nan = key_fields SampleEngine.grass_nan_aligned
  /\ FFoliageGeometryType_eq SampleEngine.grass_nan SampleEngine.grass_nan_aligned = false
  /\ Elements
       (@AddPool SampleEngine.hash_float SampleEngine.hash_bool
          SampleEngine.hash_interval SampleEngine.hash_mesh SampleEngine.buckets
          (@AddPool SampleEngine.hash_float SampleEngine.hash_bool
             SampleEngine.hash_interval SampleEngine.hash_mesh SampleEngine.buckets
             (mkTMap 8 []) SampleEngine.grass_nan [1%N])
          SampleEngine.grass_nan_aligned [2%N])
     = [(SampleEngine.grass_nan, [1%N]); (SampleEngine.grass_nan_aligned, [2%N])].
Proof. repeat split. Qed.

(** ** Counting instances *)

Lemma int32_idem_add (a b : Z) : int32 (int32 a + b) = int32 (a + b).
Proof.
  unfold int32. f_equal.
  replace ((a + 2 ^ 31) mod 2 ^ 32 - 2 ^ 31 + b + 2 ^ 31)
    with ((a + 2 ^ 31) mod 2 ^ 32 + b) by ring.
  rewrite Zplus_mod_idemp_l. f_equal. ring.
Qed.

Lemma int32_idem (a : Z) : int32 (int32 a) = int32 a.
Proof.
  replace (int32 a) with (int32 a + 0) at 1 by ring.
  rewrite int32_idem_add, Z.add_0_r. reflexivity.
Qed.

Lemma int32_small (a : Z) : INT32_MIN <= a <= INT32_MAX -> int32 a = a.
Proof.
  unfold int32, INT32_MIN, INT32_MAX. intros H.
  rewrite Z.mod_small; lia.
Qed.

(** The inner loop: the count grows by the live instances of the pool, in
    [int32] arithmetic, and the flag records whether a component was valid. *)
Lemma count_pool (objs : UObjectStore) (pool : list UFoliageHISMPtr)
  (Count : Z) (bAny : bool) :
  int32 Count = Count ->
  fold_left (count_component objs) pool (Count, bAny)
  = (int32 (Count + pool_instances objs pool),
     bAny || existsb (IsValid objs) pool).
Proof.
  revert Count bAny. induction pool as [|V pool IH]; intros Count bAny HC.
  - simpl. rewrite Z.add_0_r, HC, orb_false_r. reflexivity.
  - cbn [fold_left pool_instances fold_right existsb].
    unfold count_component at 2. cbn [fst].
    destruct (IsValid objs V).
    + rewrite (IH _ true (int32_idem _)), int32_idem_add, orb_true_r.
      cbn [orb]. f_equal. f_equal. unfold pool_instances. ring.
    + cbn [orb]. apply IH, HC.
Qed.

Lemma count_pools (objs : UObjectStore)
  (l : list (FFoliageGeometryType * list UFoliageHISMPtr)) (Count : Z) (bAny : bool) :
  int32 Count = Count ->
  fold_left (fun acc T => fold_left (count_component objs) (snd T) acc)
    l (Count, bAny)
  = (int32 (Count + fold_right (fun T s => pool_instances objs (snd T) + s) 0 l),
     bAny || existsb (fun T => existsb (IsValid objs) (snd T)) l).
Proof.
  revert Count bAny. induction l as [|T l IH]; intros Count bAny HC.
  - simpl. rewrite Z.add_0_r, HC, orb_false_r. reflexivity.
  - cbn [fold_left fold_right existsb].
    rewrite (count_pool objs (snd T) Count bAny HC).
    rewrite (IH _ _ (int32_idem _)), int32_idem_add, orb_assoc.
    do 2 f_equal. ring.
Qed.

(** In [int32] arithmetic, [GetInstanceCount] is the number of live
    instances if a component is valid, and [-1] otherwise. *)
Lemma GetInstanceCount_int32 (objs : UObjectStore) (m : FoliageMap) (Delta : float) :
  GetInstanceCount objs m Delta =
  if any_valid objs m then int32 (live_instances objs m) else -1.
Proof.
  unfold GetInstanceCount, any_valid, live_instances.
  rewrite (count_pools objs (Elements m) 0 false eq_refl).
  reflexivity.
Qed.

(** A pool without a valid component has no live instances. *)
Lemma pool_instances_invalid (objs : UObjectStore) (pool : list UFoliageHISMPtr) :
  existsb (IsValid objs) pool = false -> pool_instances objs pool = 0.
Proof.
  induction pool as [|V pool IH]; simpl; [reflexivity|].
  intros H. apply orb_false_iff in H as [-> H]. apply IH, H.
Qed.



(** ** Builds and readbacks *)

(** An idle actor that is asked to build sets its flag and requests one
    readback. *)
Lemma BuildFoliageTransforms_idle (FoliageDistributionMap NormalAndDepthMap : N)
  (RTWorldBounds : FBox) (w : World) :
  IsBuilding w = false ->
  let w' := BuildFoliageTransforms FoliageDistributionMap NormalAndDepthMap
              RTWorldBounds w in
  IsBuilding w' = true
  /\ pending (readback w')
     = pending (readback w)
       ++ [mkRequest (next_request (readback w)) (BuildContinuation RTWorldBounds)
             [FoliageDistributionMap; NormalAndDepthMap]]
  /\ HISMFoliageMap (actor w') = HISMFoliageMap (actor w)
  /\ objects w' = objects w.
Proof.
  intros Hidle w'. unfold w', BuildFoliageTransforms.
  unfold IsBuilding in Hidle. rewrite Hidle.
  repeat split; reflexivity.
Qed.

(** C3.  While [IsBuilding()] is true, [BuildFoliageTransforms] changes
    nothing: the world after the call is the world before it, so no readback
    is requested and the busy flag, the tick counter and the pool map are
    the same. *)
Theorem BuildFoliageTransforms_busy (FoliageDistributionMap NormalAndDepthMap : N)
  (RTWorldBounds : FBox) (w : World) :
  IsBuilding w = true ->
  let w' := BuildFoliageTransforms FoliageDistributionMap NormalAndDepthMap
              RTWorldBounds w in
  w' = w
  /\ pending (readback w') = pending (readback w)
  /\ next_request (readback w') = next_request (readback w)
  /\ bIsBuilding (actor w') = bIsBuilding (actor w)
  /\ Ticks (actor w') = Ticks (actor w)
  /\ HISMFoliageMap (actor w') = HISMFoliageMap (actor w).
Proof.
  intros Hbusy w'.
  assert (Hw : w' = w).
  { unfold w', BuildFoliageTransforms. unfold IsBuilding in Hbusy.
    rewrite Hbusy. reflexivity. }
  rewrite Hw. repeat split; reflexivity.
Qed.

Lemma BuildFoliageTransforms_busy_witness :
  BuildFoliageTransforms 20%N 21%N SampleEngine.box SampleEngine.busy_world
  = SampleEngine.busy_world.
Proof.
  apply (BuildFoliageTransforms_busy 20%N 21%N SampleEngine.box
           SampleEngine.busy_world).
  reflexivity.
Defined.

Lemma find_is_request_app (id : nat) (l : list ReadbackRequest) (r : ReadbackRequest) :
  request_id r = id ->
  exists r', List.find (is_request id) (l ++ [r]) = Some r'.
Proof.
  intros Hr. induction l as [|x l IH]; simpl.
  - unfold is_request. rewrite Hr, Nat.eqb_refl. eauto.
  - destruct (is_request id x); eauto.
Qed.

(** C4.  A build whose readback reports failure is abandoned as a whole:
    when the delegate has run with [false], [IsBuilding()] is false again,
    the pool map and the components are those from before the call of
    [BuildFoliageTransforms], and so is the instance count. *)
Theorem readback_failure_aborts_build (SampleAndDistribute : FBox -> World -> World)
  (FoliageDistributionMap NormalAndDepthMap : N) (RTWorldBounds : FBox)
  (Delta : float) (w : World) :
  IsBuilding w = false ->
  let w1 := BuildFoliageTransforms FoliageDistributionMap NormalAndDepthMap
              RTWorldBounds w in
  let w2 := readback_finished SampleAndDistribute (next_request (readback w))
              false w1 in
  IsBuilding w1 = true
  /\ IsBuilding w2 = false
  /\ HISMFoliageMap (actor w2) = HISMFoliageMap (actor w)
  /\ objects w2 = objects w
  /\ instanceCount w2 Delta = instanceCount w Delta.
Proof.
  intros Hidle w1 w2.
  destruct (BuildFoliageTransforms_idle FoliageDistributionMap NormalAndDepthMap
              RTWorldBounds w Hidle) as (Hb & Hp & Hm & Ho).
  fold w1 in Hb, Hp, Hm, Ho.
  split; [exact Hb|].
  assert (Hw2 : w2 = set_actor (set_bIsBuilding false (actor w1))
                       (set_readback
                          (fst (finish_copy (next_request (readback w)) false
                                  (readback w1))) w1)).
  { unfold w2, readback_finished, finish_copy. rewrite Hp.
    destruct (find_is_request_app (next_request (readback w)) (pending (readback w))
                (mkRequest (next_request (readback w)) (BuildContinuation RTWorldBounds)
                   [FoliageDistributionMap; NormalAndDepthMap]) eq_refl) as [r' ->].
    simpl. destruct (OnRenderTargetRead r'). reflexivity. }
  rewrite Hw2. unfold instanceCount. simpl. rewrite Hm, Ho. auto.
Qed.

Lemma readback_failure_aborts_build_witness :
  let w2 := readback_finished (fun _ w => w) 0 false
              (BuildFoliageTransforms 20%N 21%N SampleEngine.box
                 SampleEngine.idle_world) in
  IsBuilding w2 = false
  /\ instanceCount w2 SampleEngine.zero
     = instanceCount SampleEngine.idle_world SampleEngine.zero.
Proof.
  destruct (readback_failure_aborts_build (fun _ w => w) 20%N 21%N SampleEngine.box
              SampleEngine.zero SampleEngine.idle_world eq_refl)
    as (_ & H1 & _ & _ & H2).
  split; [exact H1 | exact H2].
Defined.

(** ** The readback service invokes each delegate once *)

Lemma invocations_app (id : nat) (s : BufferReadbackService) (x : nat * bool)
  (q : list ReadbackRequest) (n : nat) :
  invocations id (mkService q (invoked s ++ [x]) n)
  = invocations id s ++ (if Nat.eqb (fst x) id then [snd x] else []).
Proof.
  unfold invocations. simpl. rewrite List.filter_app, fmap_app. simpl.
  destruct (Nat.eqb (fst x) id); reflexivity.
Qed.

Lemma is_pending_find (id : nat) (s : BufferReadbackService) :
  is_pending id s = match List.find (is_request id) (pending s) with
                    | Some _ => true
                    | None => false
                    end.
Proof.
  unfold is_pending. induction (pending s) as [|r l IH]; simpl; [reflexivity|].
  destruct (is_request id r); simpl; auto.
Qed.

Lemma existsb_filter_other (id id' : nat) (l : list ReadbackRequest) :
  id' <> id ->
  existsb (is_request id) (List.filter (fun r => negb (is_request id' r)) l)
  = existsb (is_request id) l.
Proof.
  intros Hne. induction l as [|r l IH]; simpl; [reflexivity|].
  destruct (is_request id' r) eqn:E; simpl.
  - rewrite IH. unfold is_request in E |- *. apply Nat.eqb_eq in E.
    destruct (Nat.eqb_spec (request_id r) id); [congruence | reflexivity].
  - rewrite IH. reflexivity.
Qed.

Lemma existsb_filter_same (id : nat) (l : list ReadbackRequest) :
  existsb (is_request id) (List.filter (fun r => negb (is_request id r)) l) = false.
Proof.
  induction l as [|r l IH]; simpl; [reflexivity|].
  destruct (is_request id r) eqn:E; simpl; [exact IH|].
  rewrite E. exact IH.
Qed.

(** One event, seen from request [id]: a copy of [id] that finishes while
    the request is pending adds one invocation and ends the request; every
    other event leaves both alone. *)
Lemma service_step_request (id : nat) (s : BufferReadbackService) (ev : service_event) :
  (id < next_request s)%nat ->
  let s' := service_step s ev in
  (id < next_request s')%nat
  /\ invocations id s'
     = invocations id s
       ++ match ev with
          | EvFinish id' bSuccess =>
              if Nat.eqb id' id && is_pending id s then [bSuccess] else []
          | EvRequest _ _ => []
          end
  /\ is_pending id s'
     = match ev with
       | EvFinish id' _ => negb (Nat.eqb id' id) && is_pending id s
       | EvRequest _ _ => is_pending id s
       end.
Proof.
  intros Hlt. destruct ev as [OnRead rts | id' ok]; simpl.
  - split; [lia|]. split; [rewrite app_nil_r; reflexivity|].
    unfold is_pending. simpl. rewrite existsb_app. simpl.
    unfold is_request at 2. simpl.
    destruct (Nat.eqb_spec (next_request s) id); [lia|].
    rewrite !orb_false_r. reflexivity.
  - unfold finish_copy. rewrite (is_pending_find id s).
    destruct (Nat.eqb_spec id' id) as [->|Hne].
    + destruct (List.find (is_request id) (pending s)) eqn:Hf; simpl.
      * split; [exact Hlt|]. split.
        -- rewrite invocations_app. simpl. rewrite Nat.eqb_refl. reflexivity.
        -- unfold is_pending. simpl. apply existsb_filter_same.
      * rewrite app_nil_r, (is_pending_find id s), Hf. auto.
    + destruct (List.find (is_request id') (pending s)) eqn:Hf; simpl.
      * split; [exact Hlt|]. split.
        -- rewrite invocations_app. simpl.
           destruct (Nat.eqb_spec id' id); [contradiction | reflexivity].
        -- unfold is_pending at 1. simpl.
           rewrite (existsb_filter_other id id' _ Hne).
           fold (is_pending id s). apply is_pending_find.
      * rewrite app_nil_r. split; [exact Hlt|]. split; [reflexivity|].
        apply is_pending_find.
Qed.

Lemma service_run_request (id : nat) (evs : list service_event)
  (s : BufferReadbackService) :
  (id < next_request s)%nat ->
  is_pending id s = true ->
  invocations id s = [] ->
  let s' := service_run evs s in
  invocations id s' = match first_finish id evs with Some b => [b] | None => [] end
  /\ is_pending id s' = match first_finish id evs with Some _ => false | None => true end.
Proof.
  intros Hlt Hp Hi. simpl.
  (* once the request has ended, nothing more is invoked for it *)
  assert (Hdone : forall evs s0 l, (id < next_request s0)%nat ->
             is_pending id s0 = false -> invocations id s0 = l ->
             invocations id (service_run evs s0) = l
             /\ is_pending id (service_run evs s0) = false).
  { clear. induction evs as [|ev evs IH]; intros s0 l Hlt Hp Hi; [auto|].
    destruct (service_step_request id s0 ev Hlt) as (H1 & H2 & H3).
    simpl. apply IH; [exact H1 | |].
    - rewrite H3, Hp. destruct ev; [reflexivity | apply andb_false_r].
    - rewrite H2, Hp, Hi. destruct ev; rewrite ?andb_false_r; apply app_nil_r. }
  revert s Hlt Hp Hi. induction evs as [|ev evs IH]; intros s Hlt Hp Hi; [auto|].
  destruct (service_step_request id s ev Hlt) as (H1 & H2 & H3).
  rewrite Hp, Hi in H2. rewrite Hp in H3.
  destruct ev as [OnRead rts | id' ok]; simpl.
  - apply IH; assumption.
  - rewrite andb_true_r in H2, H3. simpl in H2.
    destruct (Nat.eqb id' id); simpl in H2, H3.
    + apply (Hdone evs _ [ok] H1 H3 H2).
    + apply IH; assumption.
Qed.


Lemma invocations_fresh (id : nat) (s : BufferReadbackService) :
  (forall x, In x (invoked s) -> (fst x < id)%nat) -> invocations id s = [].
Proof.
  unfold invocations. induction (invoked s) as [|x l IH]; intros Hl; simpl;
    [reflexivity|].
  destruct (Nat.eqb_spec (fst x) id) as [E|E].
  - specialize (Hl x (or_introl eq_refl)). lia.
  - apply IH. intros y Hy. apply Hl. now right.
Qed.

Lemma service_wf_step (s : BufferReadbackService) (ev : service_event) :
  service_wf s -> service_wf (service_step s ev).
Proof.
  intros (Hp & Hi & Hn). destruct ev as [OnRead rts | id ok]; simpl.
  - repeat split; simpl.
    + intros r Hr. apply in_app_iff in Hr as [Hr | [<- | []]]; simpl.
      * specialize (Hp r Hr). lia.
      * lia.
    + intros x Hx. specialize (Hi x Hx). lia.
    + intros r Hr. apply in_app_iff in Hr as [Hr | [<- | []]].
      * apply (Hn r Hr).
      * apply (invocations_fresh _ s Hi).
  - unfold finish_copy.
    destruct (List.find (is_request id) (pending s)) as [r0|] eqn:Hf; simpl;
      [|repeat split; assumption].
    apply find_some in Hf as [Hin Hid]. apply Nat.eqb_eq in Hid.
    repeat split; simpl.
    + intros r Hr. apply filter_In in Hr as [Hr _]. apply Hp, Hr.
    + intros x Hx. apply in_app_iff in Hx as [Hx | [<- | []]]; [apply Hi, Hx|].
      simpl. rewrite <- Hid. apply Hp, Hin.
    + intros r Hr. apply filter_In in Hr as [Hr Hne].
      rewrite invocations_app, (Hn r Hr). simpl.
      unfold is_request in Hne. rewrite Nat.eqb_sym in Hne.
      apply negb_true_iff in Hne. rewrite Hne. reflexivity.
Qed.

Lemma service_wf_run (evs : list service_event) (s : BufferReadbackService) :
  service_wf s -> service_wf (service_run evs s).
Proof.
  revert s. induction evs as [|ev evs IH]; intros s H; [exact H|].
  apply IH, service_wf_step, H.
Qed.









Lemma run_calls_app (evs evs' : list service_event) (s : BufferReadbackService) :
  run_calls (evs ++ evs') s = run_calls evs s ++ run_calls evs' (service_run evs s).
Proof.
  revert s. induction evs as [|ev evs IH]; intros s; [reflexivity|].
  simpl. rewrite IH, app_assoc. reflexivity.
Qed.





(** * Further properties of the header's code *)

(** ** The equality as a relation *)

(** X1.  [operator==] is symmetric and transitive, and whatever compares
    equal to something has no NaN among its compared floats, so it also
    compares equal to itself. *)
Theorem operator_eq_partial_equivalence (A B C : FFoliageGeometryType) :
  FFoliageGeometryType_eq A B = FFoliageGeometryType_eq B A
  /\ (FFoliageGeometryType_eq A B = true -> FFoliageGeometryType_eq B C = true ->
      FFoliageGeometryType_eq A C = true)
  /\ (FFoliageGeometryType_eq A B = true ->
      nan_free A = true /\ nan_free B = true
      /\ FFoliageGeometryType_eq A A = true /\ FFoliageGeometryType_eq B B = true).
Proof.
  split; [apply FFoliageGeometryType_eq_sym|].
  split; [apply FFoliageGeometryType_eq_trans|].
  intros H.
  assert (HA : FFoliageGeometryType_eq A A = true).
  { apply (FFoliageGeometryType_eq_trans A B A H).
    rewrite FFoliageGeometryType_eq_sym. exact H. }
  assert (HB : FFoliageGeometryType_eq B B = true).
  { apply (FFoliageGeometryType_eq_trans B A B); [|exact H].
    rewrite FFoliageGeometryType_eq_sym. exact H. }
  rewrite <- !FFoliageGeometryType_eq_refl. auto.
Qed.

Lemma float_eq_canon (a b : float) :
  float_eq a b = true <-> is_nan a = false /\ canon_float a = canon_float b.
Proof.
  rewrite float_eq_iff.
  destruct a as [sa|sa| |sa ma ea], b as [sb|sb| |sb mb eb]; simpl;
    split; try tauto; try (intros [H _]; discriminate H);
    try (intros [_ H]; discriminate H); auto.
Qed.

(** X2.  Two geometry types compare equal exactly when the first has no NaN
    among its compared floats and the two agree on the compared fields once
    the sign of every zero is dropped. *)
Theorem operator_eq_canonical (A B : FFoliageGeometryType) :
  FFoliageGeometryType_eq A B = true <->
  nan_free A = true /\ canon_key A = canon_key B.
Proof.
  rewrite FFoliageGeometryType_eq_fields, !float_eq_canon.
  unfold nan_free, canon_key. rewrite !andb_true_iff, !negb_true_iff.
  split.
  - intros ((n1 & e1) & e2 & e3 & e4 & (n5 & e5) & (n6 & e6) & e7
            & (n8 & e8) & (n9 & e9)).
    split; [tauto|]. congruence.
  - intros (((((n1 & n5) & n6) & n8) & n9) & H).
    injection H as e1 e2 e3 e4 e5 e6 e7 e8 e9. tauto.
Qed.

(** ** The hash as a sum *)

Lemma uint32_add_l (a b : Z) : uint32 (uint32 a + b) = uint32 (a + b).
Proof. unfold uint32. apply Zplus_mod_idemp_l. Qed.

Section HashSum.

Context {hash_float : TypeHash float}
        {hash_bool : TypeHash bool}
        {hash_interval : TypeHash FFloatInterval}
        {hash_mesh : TypeHash UStaticMeshPtr}.

(** The wrap-arounds of the partial sums do not show in the result. *)
Lemma GetTypeHash_flat (A : FFoliageGeometryType) :
  GetTypeHash A =
  uint32 (GetTypeHash (Density A) + GetTypeHash (bRandomYaw A)
          + GetTypeHash (ZOffset A) + GetTypeHash (Scale A)
          + GetTypeHash (Mesh A) + GetTypeHash (bCollidesWithWorld A)
          + GetTypeHash (bAffectsDistanceFieldLighting A)).
Proof.
  change (GetTypeHash A) with (FFoliageGeometryType_hash A).
  unfold FFoliageGeometryType_hash.
  set (h1 := GetTypeHash (Density A)). set (h2 := GetTypeHash (bRandomYaw A)).
  set (h3 := GetTypeHash (ZOffset A)). set (h4 := GetTypeHash (Scale A)).
  set (h5 := GetTypeHash (Mesh A)). set (h6 := GetTypeHash (bCollidesWithWorld A)).
  set (h7 := GetTypeHash (bAffectsDistanceFieldLighting A)).
  rewrite (uint32_add_l (h1 + h2) h3), (uint32_add_l (h1 + h2 + h3) h4),
    (uint32_add_l (h1 + h2 + h3 + h4) h5), (uint32_add_l (h1 + h2 + h3 + h4 + h5) h6),
    (uint32_add_l (h1 + h2 + h3 + h4 + h5 + h6) h7).
  reflexivity.
Qed.

(** X3.  Whatever the engine's field hashes are, the hash of a geometry type
    is the plain sum of the seven field hashes modulo 2^32, so it does not
    change when [ZOffset] and [Scale] are exchanged or when the values of the
    three hashed flags are rotated.  The equality does tell such a pair
    apart: it holds only if the exchanged intervals, or the rotated flags,
    were equal to begin with. *)
Theorem GetTypeHash_collisions (A : FFoliageGeometryType) :
  GetTypeHash A =
    (GetTypeHash (Density A) + GetTypeHash (bRandomYaw A)
     + GetTypeHash (ZOffset A) + GetTypeHash (Scale A)
     + GetTypeHash (Mesh A) + GetTypeHash (bCollidesWithWorld A)
     + GetTypeHash (bAffectsDistanceFieldLighting A)) mod 2 ^ 32
  /\ GetTypeHash (swap_intervals A) = GetTypeHash A
  /\ GetTypeHash (rotate_flags A) = GetTypeHash A
  /\ (FFoliageGeometryType_eq (swap_intervals A) A = true ->
      float_eq (Min (Scale A)) (Min (ZOffset A)) = true
      /\ float_eq (Max (Scale A)) (Max (ZOffset A)) = true)
  /\ (FFoliageGeometryType_eq (rotate_flags A) A = true ->
      bRandomYaw A = bCollidesWithWorld A
      /\ bCollidesWithWorld A = bAffectsDistanceFieldLighting A).
Proof.
  split; [apply GetTypeHash_flat|].
  split; [|split; [|split]].
  - rewrite !GetTypeHash_flat. simpl. f_equal. ring.
  - rewrite !GetTypeHash_flat. simpl. f_equal. ring.
  - intros H. apply FFoliageGeometryType_eq_fields in H. simpl in H.
    destruct H as (_ & _ & _ & _ & H5 & H6 & _ & H8 & H9).
    rewrite (float_eq_sym (Min (Scale A))), (float_eq_sym (Max (Scale A))). auto.
  - intros H. apply FFoliageGeometryType_eq_fields in H. simpl in H.
    destruct H as (_ & _ & H3 & H4 & _ & _ & H7 & _). split; congruence.
Qed.

End HashSum.

(** ** What the instance count depends on *)

Lemma pool_instances_app (objs : UObjectStore) (l1 l2 : list UFoliageHISMPtr) :
  pool_instances objs (l1 ++ l2) = pool_instances objs l1 + pool_instances objs l2.
Proof.
  unfold pool_instances. induction l1 as [|V l1 IH]; simpl; [reflexivity|].
  rewrite IH. destruct (IsValid objs V); ring.
Qed.

Lemma live_instances_flat (objs : UObjectStore) (m : FoliageMap) :
  live_instances objs m = pool_instances objs (all_components m).
Proof.
  unfold live_instances, all_components.
  induction (Elements m) as [|T l IH]; simpl; [reflexivity|].
  rewrite pool_instances_app, IH. reflexivity.
Qed.

Lemma any_valid_flat (objs : UObjectStore) (m : FoliageMap) :
  any_valid objs m = existsb (IsValid objs) (all_components m).
Proof.
  unfold any_valid, all_components.
  induction (Elements m) as [|T l IH]; simpl; [reflexivity|].
  rewrite existsb_app, IH. reflexivity.
Qed.

(** The count only sees the components, not the pools they are in. *)
Lemma GetInstanceCount_flat (objs : UObjectStore) (m : FoliageMap) (Delta : float) :
  GetInstanceCount objs m Delta =
  if existsb (IsValid objs) (all_components m)
  then int32 (pool_instances objs (all_components m))
  else -1.
Proof.
  rewrite GetInstanceCount_int32, any_valid_flat, live_instances_flat. reflexivity.
Qed.

Lemma pool_instances_Permutation (objs : UObjectStore) (l l' : list UFoliageHISMPtr) :
  Permutation l l' -> pool_instances objs l = pool_instances objs l'.
Proof.
  unfold pool_instances. induction 1 as [|V l l' _ IH|V W l|l l' l'' _ IH1 _ IH2]; simpl.
  - reflexivity.
  - rewrite IH. reflexivity.
  - destruct (IsValid objs V), (IsValid objs W); ring.
  - congruence.
Qed.

Lemma existsb_Permutation {A : Type} (p : A -> bool) (l l' : list A) :
  Permutation l l' -> existsb p l = existsb p l'.
Proof.
  induction 1 as [|x l l' _ IH|x y l|l l' l'' _ IH1 _ IH2]; simpl.
  - reflexivity.
  - rewrite IH. reflexivity.
  - destruct (p x), (p y); reflexivity.
  - congruence.
Qed.

(** X4.  [GetInstanceCount] depends only on which components the pools list,
    and how often: two maps whose pools hold the same components, in
    whatever order and under whatever keys, give the same count, and the
    argument [Delta] plays no part. *)
Theorem GetInstanceCount_order_irrelevant (objs : UObjectStore)
  (m m' : FoliageMap) (Delta Delta' : float) :
  Permutation (all_components m) (all_components m') ->
  GetInstanceCount objs m Delta = GetInstanceCount objs m' Delta'.
Proof.
  intros H. rewrite !GetInstanceCount_flat,
    (existsb_Permutation _ _ _ H), (pool_instances_Permutation objs _ _ H).
  reflexivity.
Qed.

(** The two sample pools, exchanged and under each other's key. *)
Lemma GetInstanceCount_order_irrelevant_witness :
  GetInstanceCount SampleEngine.components SampleEngine.pools SampleEngine.zero
  = GetInstanceCount SampleEngine.components
      (mkTMap 2 [(SampleEngine.grass, [3%N; 9%N]);
                 (SampleEngine.bare, [1%N; 2%N; nullptr])])
      SampleEngine.neg_zero.
Proof.
  apply (GetInstanceCount_order_irrelevant SampleEngine.components
           SampleEngine.pools
           (mkTMap 2 [(SampleEngine.grass, [3%N; 9%N]);
                      (SampleEngine.bare, [1%N; 2%N; nullptr])])).
  apply (Permutation_app_comm [1%N; 2%N; nullptr] [3%N; 9%N]).
Defined.

Lemma all_components_valid (objs : UObjectStore) (m : FoliageMap) :
  all_components (valid_components objs m)
  = List.filter (IsValid objs) (all_components m).
Proof.
  unfold all_components, valid_components. simpl.
  induction (Elements m) as [|T l IH]; simpl; [reflexivity|].
  rewrite List.filter_app, IH. reflexivity.
Qed.

Lemma pool_instances_filter (objs : UObjectStore) (l : list UFoliageHISMPtr) :
  pool_instances objs (List.filter (IsValid objs) l) = pool_instances objs l.
Proof.
  unfold pool_instances. induction l as [|V l IH]; simpl; [reflexivity|].
  destruct (IsValid objs V) eqn:HV; simpl; [rewrite HV, IH; reflexivity | exact IH].
Qed.

Lemma existsb_filter_self {A : Type} (p : A -> bool) (l : list A) :
  existsb p (List.filter p l) = existsb p l.
Proof.
  induction l as [|x l IH]; simpl; [reflexivity|].
  destruct (p x) eqn:Hx; simpl; [rewrite Hx; reflexivity | exact IH].
Qed.

(** X5.  Components that are not valid (null, destroyed or pending kill) are
    skipped: the count is the count of the map with these components taken
    out of every pool. *)
Theorem GetInstanceCount_skips_invalid (objs : UObjectStore) (m : FoliageMap)
  (Delta : float) :
  GetInstanceCount objs (valid_components objs m) Delta
  = GetInstanceCount objs m Delta.
Proof.
  rewrite !GetInstanceCount_flat, all_components_valid,
    existsb_filter_self, pool_instances_filter.
  reflexivity.
Qed.

Lemma pool_instances_agree (objs objs' : UObjectStore) (l : list UFoliageHISMPtr) :
  (forall V, In V l -> objs !! V = objs' !! V) ->
  pool_instances objs l = pool_instances objs' l
  /\ existsb (IsValid objs) l = existsb (IsValid objs') l.
Proof.
  unfold pool_instances. induction l as [|V l IH]; intros H; simpl; [auto|].
  destruct IH as [IH1 IH2]; [intros W HW; apply H; now right|].
  unfold IsValid, HISM_GetInstanceCount in *.
  rewrite (H V (or_introl eq_refl)), IH1, IH2. auto.
Qed.

(** X6.  The count reads the engine's objects only at the addresses the
    pools list: object stores that agree there give the same count, so
    creating, changing or destroying any other object leaves it as it is. *)
Theorem GetInstanceCount_frame (objs objs' : UObjectStore) (m : FoliageMap)
  (Delta : float) :
  (forall V, In V (all_components m) -> objs !! V = objs' !! V) ->
  GetInstanceCount objs m Delta = GetInstanceCount objs' m Delta.
Proof.
  intros H. rewrite !GetInstanceCount_flat.
  destruct (pool_instances_agree objs objs' (all_components m) H) as [-> ->].
  reflexivity.
Qed.

(** A component at address 50 is created and the one at 60 destroyed. *)
Lemma GetInstanceCount_frame_witness :
  GetInstanceCount SampleEngine.components SampleEngine.pools SampleEngine.zero
  = GetInstanceCount
      (<[50%N := mkHISM false 1000]> (delete 60%N SampleEngine.components))
      SampleEngine.pools SampleEngine.zero.
Proof.
  apply (GetInstanceCount_frame SampleEngine.components
           (<[50%N := mkHISM false 1000]> (delete 60%N SampleEngine.components))
           SampleEngine.pools SampleEngine.zero).
  intros V HV. simpl in HV.
  destruct HV as [<- | [<- | [<- | [<- | [<- | []]]]]]; reflexivity.
Defined.

Lemma pool_instances_nonneg (objs : UObjectStore) (l : list UFoliageHISMPtr) :
  (forall V, In V l -> IsValid objs V = true -> 0 <= HISM_GetInstanceCount objs V) ->
  0 <= pool_instances objs l.
Proof.
  unfold pool_instances. induction l as [|V l IH]; intros H; simpl; [lia|].
  assert (0 <= foldr
            (fun V0 s => if IsValid objs V0 then HISM_GetInstanceCount objs V0 + s else s)
            0 l) by (apply IH; intros W HW; apply H; now right).
  destruct (IsValid objs V) eqn:HV; [|assumption].
  specialize (H V (or_introl eq_refl) HV). lia.
Qed.

(** X7.  When no valid component reports a negative count and the total
    fits an [int32], the sentinel cannot be mistaken for a count:
    [GetInstanceCount] returns [-1] exactly when no component is valid, and
    otherwise the exact, non-negative total. *)
Theorem GetInstanceCount_sentinel_unambiguous (objs : UObjectStore)
  (m : FoliageMap) (Delta : float) :
  (forall V, In V (all_components m) -> IsValid objs V = true ->
     0 <= HISM_GetInstanceCount objs V) ->
  live_instances objs m <= INT32_MAX ->
  (GetInstanceCount objs m Delta = -1 <-> any_valid objs m = false)
  /\ (any_valid objs m = true ->
      GetInstanceCount objs m Delta = live_instances objs m
      /\ 0 <= GetInstanceCount objs m Delta).
Proof.
  intros Hpos Hmax.
  pose proof (pool_instances_nonneg objs (all_components m) Hpos) as H0.
  rewrite <- live_instances_flat in H0.
  rewrite GetInstanceCount_int32, int32_small by (unfold INT32_MIN; lia).
  destruct (any_valid objs m); split; try split; try intros; try lia;
    try discriminate; auto.
Qed.

Lemma GetInstanceCount_sentinel_unambiguous_witness :
  (GetInstanceCount SampleEngine.components SampleEngine.pools SampleEngine.zero = -1
   <-> any_valid SampleEngine.components SampleEngine.pools = false)
  /\ (GetInstanceCount SampleEngine.components SampleEngine.dead_pools
        SampleEngine.zero = -1
      <-> any_valid SampleEngine.components SampleEngine.dead_pools = false).
Proof.
  split.
  - apply (GetInstanceCount_sentinel_unambiguous SampleEngine.components
             SampleEngine.pools SampleEngine.zero).
    + intros V HV _. simpl in HV.
      destruct HV as [<- | [<- | [<- | [<- | [<- | []]]]]]; vm_compute; discriminate.
    + vm_compute. discriminate.
  - apply (GetInstanceCount_sentinel_unambiguous SampleEngine.components
             SampleEngine.dead_pools SampleEngine.zero).
    + intros V HV _. simpl in HV.
      destruct HV as [<- | [<- | [<- | []]]]; vm_compute; discriminate.
    + vm_compute. discriminate.
Defined.

(** X8.  The count of two lots of pools taken together is got from the two
    counts: if only one lot has a valid component it is that lot's count,
    and if both have one it is the [int32] sum of the two counts. *)
Theorem GetInstanceCount_append (objs : UObjectStore) (m1 m2 : FoliageMap)
  (Delta : float) :
  GetInstanceCount objs (append_pools m1 m2) Delta =
  if any_valid objs m1 then
    if any_valid objs m2
    then int32 (GetInstanceCount objs m1 Delta + GetInstanceCount objs m2 Delta)
    else GetInstanceCount objs m1 Delta
  else GetInstanceCount objs m2 Delta.
Proof.
  rewrite !GetInstanceCount_int32.
  assert (Hl : live_instances objs (append_pools m1 m2)
               = live_instances objs m1 + live_instances objs m2).
  { rewrite !live_instances_flat. unfold all_components, append_pools. simpl.
    rewrite List.map_app, concat_app. apply pool_instances_app. }
  assert (Hv : any_valid objs (append_pools m1 m2)
               = any_valid objs m1 || any_valid objs m2).
  { unfold any_valid, append_pools. simpl. apply existsb_app. }
  assert (Hz : forall m, any_valid objs m = false -> live_instances objs m = 0).
  { intros m. rewrite any_valid_flat, live_instances_flat.
    apply pool_instances_invalid. }
  rewrite Hl, Hv.
  destruct (any_valid objs m1) eqn:H1, (any_valid objs m2) eqn:H2; cbn [orb]; cbv iota.
  - rewrite int32_idem_add,
      (Z.add_comm (live_instances objs m1) (int32 (live_instances objs m2))),
      int32_idem_add. f_equal. ring.
  - rewrite (Hz m2 H2), Z.add_0_r. reflexivity.
  - rewrite (Hz m1 H1). reflexivity.
  - reflexivity.
Qed.

(** ** Geometry types in the pool map *)

Lemma add_element_none {K V : Type} (p : K * V -> bool) (new : K * V)
  (l : list (K * V)) :
  (forall e, In e l -> p e = false) -> add_element p new l = l ++ [new].
Proof.
  induction l as [|e l IH]; intros H; simpl; [reflexivity|].
  rewrite (H e (or_introl eq_refl)), IH; [reflexivity|].
  intros x Hx. apply H. now right.
Qed.

Lemma eq_nan_free_r (A B : FFoliageGeometryType) :
  FFoliageGeometryType_eq B A = true -> nan_free A = true.
Proof.
  intros H. rewrite <- FFoliageGeometryType_eq_refl.
  apply (FFoliageGeometryType_eq_trans A B A); [|exact H].
  rewrite FFoliageGeometryType_eq_sym. exact H.
Qed.

Section PoolMapFacts.

Context {hash_float : TypeHash float}
        {hash_bool : TypeHash bool}
        {hash_interval : TypeHash FFloatInterval}
        {hash_mesh : TypeHash UStaticMeshPtr}
        {alloc : TSetAllocator}.

(** With consistent field hashes the bucket test never rejects an equal key. *)
Lemma Matches_is_eq (size : Z) (A : FFoliageGeometryType)
  (e : FFoliageGeometryType * list UFoliageHISMPtr) :
  engine_hash_consistent ->
  Matches FFoliageGeometryType_eq size A e = FFoliageGeometryType_eq (fst e) A.
Proof.
  intros [Hf Hi]. unfold Matches.
  destruct (FFoliageGeometryType_eq (fst e) A) eqn:He; [|apply andb_false_r].
  rewrite (GetTypeHash_eq Hf Hi (fst e) A He), Z.eqb_refl. reflexivity.
Qed.

(** With consistent field hashes a lookup does not see the bucket count. *)
Lemma FindPool_any_size (size size' : Z)
  (l : list (FFoliageGeometryType * list UFoliageHISMPtr))
  (A : FFoliageGeometryType) :
  engine_hash_consistent ->
  FindPool (mkTMap size l) A = FindPool (mkTMap size' l) A.
Proof.
  intros Hc. unfold FindPool, Find. simpl. f_equal.
  induction l as [|e l IH]; simpl; [reflexivity|].
  rewrite !(Matches_is_eq _ A e Hc), IH. reflexivity.
Qed.

(** No stored pair matches a key that has a NaN among its compared floats. *)
Lemma Matches_nan (size : Z) (A : FFoliageGeometryType)
  (e : FFoliageGeometryType * list UFoliageHISMPtr) :
  nan_free A = false -> Matches FFoliageGeometryType_eq size A e = false.
Proof.
  intros Hn. unfold Matches.
  destruct (FFoliageGeometryType_eq (fst e) A) eqn:He; [|apply andb_false_r].
  rewrite (eq_nan_free_r A (fst e) He) in Hn. discriminate.
Qed.

Lemma FindPool_nan (m : FoliageMap) (A : FFoliageGeometryType) :
  nan_free A = false -> FindPool m A = None.
Proof.
  intros Hn. unfold FindPool, Find.
  rewrite find_none; [reflexivity|]. intros e _. apply Matches_nan, Hn.
Qed.

(** X9.  Insert, then look up, in [HISMFoliageMap]: whatever the engine's
    hashes and whatever the map held, the pool added under a geometry type
    is the pool found under it, unless one of its compared floats is a NaN:
    then nothing is found. *)
Theorem FindPool_AddPool_round_trip (m : FoliageMap) (A : FFoliageGeometryType)
  (pool : list UFoliageHISMPtr) :
  FindPool (AddPool m A pool) A = if nan_free A then Some pool else None.
Proof.
  destruct (nan_free A) eqn:Hn.
  - unfold FindPool, AddPool. apply Find_Add_same.
    rewrite FFoliageGeometryType_eq_refl. exact Hn.
  - apply FindPool_nan, Hn.
Qed.

(** X10.  Adding under a geometry type with a NaN among its compared floats
    never replaces a pool: the pair goes to the end of the stored pairs, so
    the map grows with every such call, and the added pool is not found.
    Provided the engine's hashes of floats and float intervals agree on
    arguments that compare equal, no lookup changes either. *)
Theorem AddPool_nan_appends (m : FoliageMap) (A : FFoliageGeometryType)
  (pool : list UFoliageHISMPtr) :
  nan_free A = false ->
  Elements (AddPool m A pool) = Elements m ++ [(A, pool)]
  /\ FindPool (AddPool m A pool) A = None
  /\ (engine_hash_consistent ->
      forall B, FindPool (AddPool m A pool) B = FindPool m B).
Proof.
  intros Hn. split; [|split].
  - unfold AddPool, Add. simpl. apply add_element_none.
    intros e _. apply Matches_nan, Hn.
  - apply FindPool_nan, Hn.
  - intros Hc B. destruct m as [size l]. unfold AddPool, Add. simpl.
    rewrite (FindPool_any_size _ size _ B Hc).
    unfold FindPool, Find. simpl. f_equal.
    apply (find_add_element_unrelated FFoliageGeometryType_eq
             FFoliageGeometryType_eq_sym FFoliageGeometryType_eq_trans).
    destruct (FFoliageGeometryType_eq A B) eqn:He; [|reflexivity].
    rewrite FFoliageGeometryType_eq_sym in He.
    rewrite (eq_nan_free_r A B He) in Hn. discriminate.
Qed.

(** X11.  Provided the engine's hashes of floats and float intervals agree
    on arguments that compare equal, the pools of geometry types that do not
    compare equal are independent: adding or replacing the pool of one
    leaves what is found under the other, also when the table is regrown. *)
Theorem AddPool_other_key (m : FoliageMap) (A B : FFoliageGeometryType)
  (pool : list UFoliageHISMPtr) :
  engine_hash_consistent ->
  FFoliageGeometryType_eq A B = false ->
  FindPool (AddPool m A pool) B = FindPool m B.
Proof.
  intros Hc H. destruct m as [size l]. unfold AddPool, Add. simpl.
  rewrite (FindPool_any_size _ size _ B Hc).
  unfold FindPool, Find. simpl. f_equal.
  apply (find_add_element_unrelated FFoliageGeometryType_eq
           FFoliageGeometryType_eq_sym FFoliageGeometryType_eq_trans), H.
Qed.

(** X12.  Adding a pool keeps the keys of [HISMFoliageMap] distinct: if no
    two stored geometry types fall in one bucket and compare equal before
    the call, none do after it, for every key and every engine hash. *)
Theorem AddPool_keeps_keys_distinct (m : FoliageMap) (A : FFoliageGeometryType)
  (pool : list UFoliageHISMPtr) :
  KeysDistinct FFoliageGeometryType_eq m = true ->
  KeysDistinct FFoliageGeometryType_eq (AddPool m A pool) = true.
Proof.
  intros H. unfold KeysDistinct, AddPool, Add. simpl.
  apply keys_distinct_grown, keys_distinct_add;
    [apply FFoliageGeometryType_eq_sym | apply FFoliageGeometryType_eq_trans | exact H].
Qed.

End PoolMapFacts.

Lemma AddPool_nan_appends_witness :
  Elements
    (@AddPool SampleEngine.hash_float SampleEngine.hash_bool
       SampleEngine.hash_interval SampleEngine.hash_mesh SampleEngine.buckets
       SampleEngine.pools SampleEngine.grass_nan [30%N])
  = Elements SampleEngine.pools ++ [(SampleEngine.grass_nan, [30%N])].
Proof.
  apply (@AddPool_nan_appends SampleEngine.hash_float SampleEngine.hash_bool
           SampleEngine.hash_interval SampleEngine.hash_mesh SampleEngine.buckets
           SampleEngine.pools SampleEngine.grass_nan [30%N]).
  reflexivity.
Defined.

Lemma AddPool_other_key_witness :
  @FindPool SampleEngine.hash_float SampleEngine.hash_bool
    SampleEngine.hash_interval SampleEngine.hash_mesh
    (@AddPool SampleEngine.hash_float SampleEngine.hash_bool
       SampleEngine.hash_interval SampleEngine.hash_mesh SampleEngine.buckets
       SampleEngine.pools SampleEngine.grass [30%N])
    SampleEngine.bare
  = @FindPool SampleEngine.hash_float SampleEngine.hash_bool
      SampleEngine.hash_interval SampleEngine.hash_mesh
      SampleEngine.pools SampleEngine.bare.
Proof.
  apply (@AddPool_other_key SampleEngine.hash_float SampleEngine.hash_bool
           SampleEngine.hash_interval SampleEngine.hash_mesh SampleEngine.buckets
           SampleEngine.pools SampleEngine.grass SampleEngine.bare [30%N]
           sample_engine_consistent).
  reflexivity.
Defined.

Lemma AddPool_keeps_keys_distinct_witness :
  @KeysDistinct _ _ FFoliageGeometryType_eq SampleEngine.hash_geometry
    (@AddPool SampleEngine.hash_float SampleEngine.hash_bool
       SampleEngine.hash_interval SampleEngine.hash_mesh SampleEngine.buckets
       SampleEngine.pools SampleEngine.grass_aligned [30%N]) = true.
Proof.
  apply (@AddPool_keeps_keys_distinct SampleEngine.hash_float SampleEngine.hash_bool
           SampleEngine.hash_interval SampleEngine.hash_mesh SampleEngine.buckets
           SampleEngine.pools SampleEngine.grass_aligned [30%N]).
  reflexivity.
Defined.

Section BucketFacts.

Context {hash_float : TypeHash float}
        {hash_bool : TypeHash bool}
        {hash_interval : TypeHash FFloatInterval}
        {hash_mesh : TypeHash UStaticMeshPtr}.

(** X13.  The engine's field hashes agreeing on equal arguments, a lookup
    in [HISMFoliageMap] does not depend on the number of hash buckets: it
    returns the pool of the first stored geometry type that compares equal
    to the key, so growing or rehashing the table changes no result. *)
Theorem FindPool_bucket_independent (size size' : Z)
  (l : list (FFoliageGeometryType * list UFoliageHISMPtr))
  (A : FFoliageGeometryType) :
  engine_hash_consistent ->
  FindPool (mkTMap size l) A
    = snd <$> List.find (fun e => FFoliageGeometryType_eq (fst e) A) l
  /\ FindPool (mkTMap size l) A = FindPool (mkTMap size' l) A.
Proof.
  intros Hc.
  assert (H : forall s, FindPool (mkTMap s l) A
                = snd <$> List.find (fun e => FFoliageGeometryType_eq (fst e) A) l).
  { intros s. unfold FindPool, Find. simpl. f_equal.
    induction l as [|e l IH]; simpl; [reflexivity|].
    rewrite (Matches_is_eq s A e Hc), IH. reflexivity. }
  split; [apply H|]. rewrite !H. reflexivity.
Qed.

End BucketFacts.

Lemma FindPool_bucket_independent_witness :
  @FindPool SampleEngine.hash_float SampleEngine.hash_bool
    SampleEngine.hash_interval SampleEngine.hash_mesh
    (mkTMap 8 (Elements SampleEngine.pools)) SampleEngine.bare_neg
  = @FindPool SampleEngine.hash_float SampleEngine.hash_bool
      SampleEngine.hash_interval SampleEngine.hash_mesh
      (mkTMap 1024 (Elements SampleEngine.pools)) SampleEngine.bare_neg.
Proof.
  apply (@FindPool_bucket_independent SampleEngine.hash_float SampleEngine.hash_bool
           SampleEngine.hash_interval SampleEngine.hash_mesh
           8 1024 (Elements SampleEngine.pools) SampleEngine.bare_neg
           sample_engine_consistent).
Defined.
